(** * salmon.converter.transcoding: the FLAC to MP3 transcoding pipeline

    A shallow embedding of [src/salmon/converter/transcoding.py] and the
    properties of it that the specification states.

    Conventions of the embedding.
    - Python [str] values are Rocq [string]s.  The embedding is exact for
      ASCII text: [str.lower], [re.IGNORECASE] and [int] are modelled on
      ASCII characters only.
    - Paths follow [posixpath] (the separator is [/], file names are
      compared case-sensitively).
    - A [dict[str, list[str]]] is a [gmap string (list string)].
    - A [bytes] value is the [string] of its bytes, and decoding is the
      strict UTF-8 codec.
    - An ID3 tag is the [gmap] from hash keys to frames.
    - Code with effects runs in a state-and-exception monad over a [world]
      that holds the file system, the processes spawned so far and the
      console output. *)

From Stdlib Require Import Ascii String ZArith.
From stdpp Require Import gmap strings list fin_maps pretty sorting.

Local Open Scope string_scope.
Local Open Scope Z_scope.

(** ** Python strings *)

Module PyStr.

Definition is_upper (c : ascii) : bool :=
  let n := nat_of_ascii c in ((65 <=? n) && (n <=? 90))%nat.

Definition lower_char (c : ascii) : ascii :=
  if is_upper c then ascii_of_nat (nat_of_ascii c + 32) else c.

(** [s.lower()] *)
Fixpoint lower (s : string) : string :=
  match s with
  | EmptyString => EmptyString
  | String c s' => String (lower_char c) (lower s')
  end.

(** [s.startswith(p)] *)
Definition startswith (p s : string) : bool := String.prefix p s.

(** [s.endswith(p)] *)
Definition endswith (p s : string) : bool :=
  String.prefix (String.rev p) (String.rev s).

(** [sep.join(l)] *)
Fixpoint join (sep : string) (l : list string) : string :=
  match l with
  | [] => ""
  | [x] => x
  | x :: l' => x ++ sep ++ join sep l'
  end.

(** [s.split(sep)] for a one-character separator. *)
Fixpoint split (sep : ascii) (s : string) : list string :=
  match s with
  | EmptyString => [""]
  | String c s' =>
      if Ascii.eqb c sep then "" :: split sep s'
      else match split sep s' with
           | [] => [String c ""]
           | w :: ws => String c w :: ws
           end
  end.

(** [needle in s] *)
Fixpoint contains (needle s : string) : bool :=
  String.prefix needle s ||
  match s with
  | EmptyString => false
  | String _ s' => contains needle s'
  end.

End PyStr.

(** ** The fragment of [re] that the two folder patterns use

    A pattern is a sequence of atoms: a literal character, a literal
    character compared without case ([re.IGNORECASE]), or the greedy [.*]
    (where [.] is any character but a newline). *)

Module Re.

Inductive atom : Type :=
| Lit (c : ascii)
| LitCI (c : ascii)
| AnyStar.

Definition regex : Type := list atom.

Definition is_newline (c : ascii) : bool := Ascii.eqb c "010"%char.

(** The length of the match of [re] anchored at the start of [s], found
    as a backtracking matcher finds it: [.*] first takes as many
    characters as it can and gives them back one at a time. *)
Fixpoint match_here (re : regex) (s : string) : option nat :=
  match re with
  | [] => Some 0%nat
  | Lit c :: re' =>
      match s with
      | String d s' => if Ascii.eqb c d then S <$> match_here re' s' else None
      | EmptyString => None
      end
  | LitCI c :: re' =>
      match s with
      | String d s' =>
          if Ascii.eqb (PyStr.lower_char c) (PyStr.lower_char d)
          then S <$> match_here re' s' else None
      | EmptyString => None
      end
  | AnyStar :: re' =>
      (fix star (t : string) : option nat :=
         match t with
         | String d t' =>
             if is_newline d then match_here re' t
             else match star t' with
                  | Some n => Some (S n)
                  | None => match_here re' t
                  end
         | EmptyString => match_here re' t
         end) s
  end.

(** [re.search(s)] is not [None]. *)
Fixpoint search (re : regex) (s : string) : bool :=
  match match_here re s with
  | Some _ => true
  | None =>
      match s with
      | String _ s' => search re s'
      | EmptyString => false
      end
  end.

(** [re.sub(repl, s)] for a replacement without backslashes: every
    leftmost non-overlapping match is replaced by [repl].  [skip] counts
    the characters of the current match still to be dropped. *)
Fixpoint sub_from (re : regex) (repl : string) (skip : nat) (s : string) : string :=
  match s with
  | EmptyString =>
      match skip, match_here re "" with
      | O, Some _ => repl
      | _, _ => ""
      end
  | String c s' =>
      match skip with
      | S n => sub_from re repl n s'
      | O =>
          match match_here re s with
          | Some (S n) => repl ++ sub_from re repl n s'
          | Some O => repl ++ String c (sub_from re repl 0 s')
          | None => String c (sub_from re repl 0 s')
          end
      end
  end.

Definition sub (re : regex) (repl s : string) : string := sub_from re repl 0 s.

(** A pattern that is a plain word. *)
Fixpoint lits (s : string) : regex :=
  match s with
  | EmptyString => []
  | String c s' => Lit c :: lits s'
  end.

Fixpoint lits_ci (s : string) : regex :=
  match s with
  | EmptyString => []
  | String c s' => LitCI c :: lits_ci s'
  end.

End Re.

(** ** [posixpath] *)

Module OsPath.

Definition is_sep (c : ascii) : bool := Ascii.eqb c "/"%char.

(** [(p[:i], p[i:])] for [i = p.rfind('/') + 1]. *)
Fixpoint rsplit (p : string) : string * string :=
  match p with
  | EmptyString => ("", "")
  | String c p' =>
      match rsplit p' with
      | (EmptyString, t) => if is_sep c then ("/", t) else ("", String c t)
      | (h, t) => (String c h, t)
      end
  end.

Fixpoint all_seps (s : string) : bool :=
  match s with
  | EmptyString => true
  | String c s' => is_sep c && all_seps s'
  end.

(** [s.rstrip('/')] *)
Fixpoint rstrip_seps (s : string) : string :=
  match s with
  | EmptyString => ""
  | String c s' => if all_seps s then "" else String c (rstrip_seps s')
  end.

(** [os.path.basename] *)
Definition basename (p : string) : string := snd (rsplit p).

(** [os.path.dirname] *)
Definition dirname (p : string) : string :=
  let head := fst (rsplit p) in
  if all_seps head then head else rstrip_seps head.

(** [os.path.join(a, b)] *)
Definition join (a b : string) : string :=
  if PyStr.startswith "/" b then b
  else if String.eqb a "" || PyStr.endswith "/" a then a ++ b
  else a ++ "/" ++ b.

(** [os.path.splitext(p)[1]]: the extension starts at the last dot of
    the last component, unless that component has only leading dots
    before it. *)
Fixpoint all_dots (s : string) : bool :=
  match s with
  | EmptyString => true
  | String c s' => Ascii.eqb c "."%char && all_dots s'
  end.

(** The pair (stem, extension) of a name without separators. *)
Fixpoint split_last_dot (s : string) : string * string :=
  match s with
  | EmptyString => ("", "")
  | String c s' =>
      match split_last_dot s' with
      | (st, EmptyString) =>
          if Ascii.eqb c "."%char then ("", String c st) else (String c st, "")
      | (st, e) => (String c st, e)
      end
  end.

Definition splitext_name (name : string) : string * string :=
  let '(st, e) := split_last_dot name in
  if all_dots st then (name, "") else (st, e).

Definition splitext_ext (p : string) : string := snd (splitext_name (basename p)).

End OsPath.

(** ** Constants of the module *)

Definition LAME_COMMAND_MAP : gmap string (list string) :=
  <["V0" := ["-V"; "0"; "--vbr-new"]]> (<["320" := ["-b"; "320"; "-h"]]> ∅).
Definition LAME_OPTIONS : list string := ["--quiet"; "--add-id3v2"; "--ignore-tag-errors"].
Definition FLAC_DECODE_OPTIONS : list string := ["-Vdsc"].
Definition ID3V2_VERSION : Z := 4.

Definition COPY_EXTENSIONS : list string := [".jpg"; ".jpeg"; ".png"; ".pdf"; ".txt"].
Definition FLAC_TAGS_NOT_TO_COPY : list string := ["encoder"].
(** [re.compile(r"\[FLAC.*\]")] *)
Definition FLAC_FOLDER_RE : Re.regex :=
  (Re.lits "[FLAC" ++ [Re.AnyStar] ++ Re.lits "]")%list.
(** [re.compile(r"Lossless", flags=re.IGNORECASE)] *)
Definition LOSSLESS_FOLDER_RE : Re.regex := Re.lits_ci "Lossless".
Definition LOSSY_EXTENSIONS : list string := [".mp3"; ".m4a"; ".ogg"; ".opus"].

(** ** The Path Namer *)

Definition _build_output_path (path bitrate : string) : string :=
  let foldername := OsPath.basename path in
  let '(foldername, to_append) :=
    if Re.search FLAC_FOLDER_RE foldername then
      if Re.search LOSSLESS_FOLDER_RE foldername then
        let foldername := Re.sub FLAC_FOLDER_RE "MP3" foldername in
        (Re.sub LOSSLESS_FOLDER_RE bitrate foldername, [])
      else (Re.sub FLAC_FOLDER_RE ("MP3 " ++ bitrate) foldername, [])
    else if Re.search LOSSLESS_FOLDER_RE foldername then
      (Re.sub LOSSLESS_FOLDER_RE bitrate foldername, ["MP3"])
    else (foldername, ["MP3 " ++ bitrate]) in
  let foldername :=
    match to_append with
    | [] => foldername
    | _ => foldername ++ " [" ++ PyStr.join " " to_append ++ "]"
    end in
  OsPath.join (OsPath.dirname path) foldername.

(** ** Exceptions and results *)

Inductive exn : Type :=
| ValueError (msg : string)          (* raised by this module *)
| RuntimeError (msg : string)        (* raised by this module *)
| Abort                              (* [click.Abort] *)
| IntValueError (literal : string)   (* [ValueError] raised by [int] *)
| IndexError                         (* [l[0]] on an empty list *)
| KeyError (key : string)            (* [d[k]] on a missing key *)
| MutagenError (msg : string)        (* raised by the tag library *)
| OSError (path : string)            (* raised by the operating system *)
| UnicodeDecodeError (data : string) (* raised by [bytes.decode] *)
| BatchError (failed : list string). (* raised by the batch runner *)

Inductive res (A : Type) : Type :=
| Ok (a : A)
| Raise (e : exn).
Arguments Ok {A} a.
Arguments Raise {A} e.

Definition res_bind {A B : Type} (r : res A) (k : A -> res B) : res B :=
  match r with
  | Ok a => k a
  | Raise e => Raise e
  end.

Declare Scope res_scope.
Delimit Scope res_scope with res.
Notation "x <- r ;; k" := (res_bind r (fun x => k))
  (at level 100, r at next level, right associativity) : res_scope.

(** [for x in l: acc = f(acc, x)], stopping at the first exception. *)
Fixpoint res_fold {A B : Type} (f : B -> A -> res B) (acc : B) (l : list A) : res B :=
  match l with
  | [] => Ok acc
  | x :: l' => res_bind (f acc x) (fun acc' => res_fold f acc' l')
  end.

(** [[f(x) for x in l]], stopping at the first exception. *)
Fixpoint res_map {A B : Type} (f : A -> res B) (l : list A) : res (list B) :=
  match l with
  | [] => Ok []
  | x :: l' =>
      res_bind (f x) (fun y => res_bind (res_map f l') (fun ys => Ok (y :: ys)))
  end.

(** ** The builtins [int] and [str] on decimal integers *)

Module PyInt.

(** [Py_ISSPACE] *)
Definition is_space (c : ascii) : bool :=
  let n := nat_of_ascii c in (((9 <=? n) && (n <=? 13)) || (n =? 32))%nat.

Definition digit (c : ascii) : option Z :=
  let n := nat_of_ascii c in
  if ((48 <=? n) && (n <=? 57))%nat then Some (Z.of_nat (n - 48)) else None.

Fixpoint lstrip (s : string) : string :=
  match s with
  | String c s' => if is_space c then lstrip s' else s
  | EmptyString => ""
  end.

Definition strip (s : string) : string :=
  String.rev (lstrip (String.rev (lstrip s))).

(** Where the scan of the digits stands: nothing read yet, a digit just
    read, or an underscore just read (which a digit must follow). *)
Inductive scan : Type := Start | AfterDigit | AfterUnderscore.

Fixpoint digits (st : scan) (acc : Z) (s : string) : option Z :=
  match s with
  | EmptyString =>
      match st with
      | AfterDigit => Some acc
      | _ => None
      end
  | String c s' =>
      match digit c with
      | Some d => digits AfterDigit (10 * acc + d) s'
      | None =>
          if Ascii.eqb c "_"%char then
            match st with
            | AfterDigit => digits AfterUnderscore acc s'
            | _ => None
            end
          else None
      end
  end.

(** [int(s)]: surrounding white space, an optional sign, decimal digits
    with single underscores between them.  The limit on the number of
    digits ([sys.set_int_max_str_digits]) is not modelled. *)
Definition parse (s : string) : option Z :=
  match strip s with
  | String "-" s' => Z.opp <$> digits Start 0 s'
  | String "+" s' => digits Start 0 s'
  | s' => digits Start 0 s'
  end.

Definition int (s : string) : res Z :=
  match parse s with
  | Some z => Ok z
  | None => Raise (IntValueError s)
  end.

(** [str(z)] *)
Definition str (z : Z) : string := pretty z.

End PyInt.

(** ** Python byte strings

    A byte string is the [string] of its bytes, and a text the [string]
    of the bytes of its UTF-8 encoding. *)

Module PyBytes.

Definition between (lo hi : N) (c : ascii) : bool :=
  let b := N_of_ascii c in ((lo <=? b) && (b <=? hi))%N.

Definition continuation (c : ascii) : bool := between 128 191 c.

(** The second byte after the lead byte of a sequence of three and of
    four bytes: no overlong form, no surrogate, nothing above U+10FFFF. *)
Definition second_of_three (lead : N) (c : ascii) : bool :=
  if (lead =? 224)%N then between 160 191 c
  else if (lead =? 237)%N then between 128 159 c
  else continuation c.

Definition second_of_four (lead : N) (c : ascii) : bool :=
  if (lead =? 240)%N then between 144 191 c
  else if (lead =? 244)%N then between 128 143 c
  else continuation c.

(** The byte strings that the strict UTF-8 codec accepts. *)
Fixpoint well_formed (b : string) : bool :=
  match b with
  | EmptyString => true
  | String c b1 =>
      let lead := N_of_ascii c in
      if (lead <? 128)%N then well_formed b1
      else if between 194 223 c then
        match b1 with
        | String c1 b2 => continuation c1 && well_formed b2
        | _ => false
        end
      else if between 224 239 c then
        match b1 with
        | String c1 (String c2 b3) =>
            second_of_three lead c1 && continuation c2 && well_formed b3
        | _ => false
        end
      else if between 240 244 c then
        match b1 with
        | String c1 (String c2 (String c3 b4)) =>
            second_of_four lead c1 && continuation c2 && continuation c3
            && well_formed b4
        | _ => false
        end
      else false
  end.

(** [b.decode()] *)
Definition decode (b : string) : res string :=
  if well_formed b then Ok b else Raise (UnicodeDecodeError b).

End PyBytes.

(** ** The Tag Normalizer *)

Abbreviation tagdict := (gmap string (list string)).

(** Track number / disc number total merging map, in the order in which
    the dictionary lists its keys. *)
Definition _TOT_MAP : list (string * list string) :=
  [ ("tracknumber", ["tracktotal"; "totaltracks"; "total tracks"]);
    ("discnumber", ["disctotal"; "totaldiscs"; "total discs"]) ].

(** [l[0]] *)
Definition first {A : Type} (l : list A) : res A :=
  match l with
  | x :: _ => Ok x
  | [] => Raise IndexError
  end.

(** [d[k]] *)
Definition getitem (d : tagdict) (k : string) : res (list string) :=
  match d !! k with
  | Some v => Ok v
  | None => Raise (KeyError k)
  end.

(** The tags that are not copied: [k.startswith("replaygain")] or
    [k in FLAC_TAGS_NOT_TO_COPY]. *)
Definition unwanted (k : string) : bool :=
  PyStr.startswith "replaygain" k || bool_decide (k ∈ FLAC_TAGS_NOT_TO_COPY).

Definition drop_unwanted (tags : tagdict) : tagdict :=
  filter (λ kv, unwanted kv.1 = false) tags.

(** [tots & result.keys()].  Python iterates this set of strings in an
    order that changes with the hash seed of the process; the embedding
    lists it in the order of [tots].  What is stated below of the
    conflict message, which joins the keys in that order, is stated for
    the keys in some order. *)
Definition used_keys (tots : list string) (result : tagdict) : list string :=
  filter (λ t, is_Some (result !! t)) tots.

(** [int(result[t][0])] *)
Definition total_of (result : tagdict) (t : string) : res Z :=
  (v <- getitem result t ;; x <- first v ;; PyInt.int x)%res.

Definition conflict_message (used : list string) : string :=
  "conflicting values of " ++ PyStr.join " and " used.

(** The body of the loop over [_TOT_MAP.items()]. *)
Definition merge_totals (result : tagdict) (entry : string * list string) : res tagdict :=
  let '(tag, tots) := entry in
  match result !! tag with
  | None => Ok result
  | Some _ =>
      let used := used_keys tots result in
      match used with
      | [] => Ok result
      | _ =>
          (vals <- res_map (total_of result) used ;;
           let tot_vals : gset Z := list_to_set vals in
           (* Remove total keys *)
           let result : tagdict := filter (λ kv, kv.1 ∉ used) result in
           match elements tot_vals with
           | [total] =>
               v <- getitem result tag ;;
               nr <- first v ;;
               Ok (<[tag := [nr ++ "/" ++ PyInt.str total]]> result)
           | _ => Raise (ValueError (conflict_message used))
           end)%res
      end
  end.

Definition _prepare_tags (tags : tagdict) : res tagdict :=
  res_fold merge_totals (drop_unwanted tags) _TOT_MAP.

(** The first value of key [k] read as an integer, when it has one:
    [int(d[k][0])] without its exceptions. *)
Definition first_total (d : tagdict) (k : string) : option Z :=
  v ← d !! k; x ← head v; PyInt.parse x.

(** ** [pathlib] on POSIX path strings

    A [Path] is kept as its string.  [Path(p)] drops trailing separators;
    the other normalisations of [pathlib] (repeated separators, [.]
    components) are not modelled, so paths are taken without them. *)

Module Pathlib.

(** [str(Path(p))] *)
Definition Path (p : string) : string :=
  if OsPath.all_seps p then (if String.eqb p "" then "." else "/")
  else OsPath.rstrip_seps p.

Definition name (p : string) : string := OsPath.basename p.

Definition parts (p : string) : list string := PyStr.split "/" p.

(** [p.suffix]: from the last dot of the name, when that dot is neither
    the first nor the last character of the name. *)
Definition suffix (p : string) : string :=
  let '(st, e) := OsPath.split_last_dot (name p) in
  match st, e with
  | EmptyString, _ => ""
  | _, String _ EmptyString => ""
  | _, _ => e
  end.

(** [p.with_suffix(s)] *)
Definition with_suffix (s p : string) : string :=
  let old := suffix p in
  String.substring 0 (String.length p - String.length old) p ++ s.

(** [a / rel] *)
Definition joinpath (a rel : string) : string := OsPath.join a rel.

(** The prefix that the paths below directory [a] share. *)
Definition below (a : string) : string :=
  if PyStr.endswith "/" a then a else a ++ "/".

(** [p.relative_to(base)] *)
Definition relative_to (base p : string) : res string :=
  if PyStr.startswith (below base) p
  then Ok (String.substring (String.length (below base))
             (String.length p - String.length (below base)) p)
  else Raise (ValueError (p ++ " is not in the subpath of " ++ base)).

(** [p.parent] *)
Definition parent (p : string) : string :=
  let h := OsPath.dirname p in if String.eqb h "" then "." else h.

(** The order of paths: component by component. *)
Fixpoint parts_leb (a b : list string) : bool :=
  match a, b with
  | [], _ => true
  | _ :: _, [] => false
  | x :: a', y :: b' =>
      if String.eqb x y then parts_leb a' b' else String.leb x y
  end.

Definition le (p q : string) : Prop := parts_leb (parts p) (parts q) = true.

#[global] Instance le_dec : RelDecision le.
Proof. intros p q. unfold le. apply _. Defined.

(** [fnmatch(name, "*.flac")]: the name ends in [.flac]. *)
Definition matches_star_flac (p : string) : bool :=
  PyStr.endswith ".flac" (name p).

End Pathlib.

(** ** Audio files and tag containers, as the tag library shows them *)

Record Picture : Type := {
  pic_mime : string;
  pic_type : Z;
  pic_desc : string;
  pic_data : string
}.

(** The tag block of a FLAC file: a Vorbis comment, given by what
    [as_dict()] returns for it, or a block of another kind. *)
Inductive TagBlock : Type :=
| VCFLACDict (as_dict : tagdict)
| OtherTags.

(** [mutagen.flac.FLAC] *)
Record FLAC : Type := {
  info_channels : Z;
  flac_tags : option TagBlock;
  flac_pictures : list Picture
}.

(** ID3v2 frames as the module constructs them. *)
Inductive Frame : Type :=
| TextFrame (frame_name : string) (encoding : Z) (text : list string)
| TXXX (encoding : Z) (desc : string) (text : list string)
| APIC (encoding : Z) (mime : string) (type : Z) (desc : string) (data : string).

(** An MP3 file: its ID3v2 tag ([None] when it has none), which files
    each frame under the hash key of the frame, the version it was saved
    with, and whether it carries an ID3v1 tag. *)
Record MP3 : Type := {
  mp3_tags : option (gmap string Frame);
  mp3_v2_version : Z;
  mp3_has_v1 : bool
}.

(** ** The world: file system, processes, console *)

Inductive node : Type :=
| Dir
| FlacFile (f : FLAC)
| Mp3File (m : MP3)
| OtherFile (data : string).

Abbreviation filesystem := (gmap string node).

Record world : Type := {
  w_fs : filesystem;
  w_spawned : list (list string);  (* command lines, oldest first *)
  w_console : list string          (* lines echoed, oldest first *)
}.

(** What a finished child process reports. *)
Record Completed : Type := {
  returncode : Z;
  stderr : string   (* the bytes captured *)
}.

(** The behaviour of the host: what a child process does to the file
    system and reports (or the exception raised when it cannot be
    started), the name under which a temporary file is created, and what
    the installed tag library does with a frame whose hash key is taken
    in the tag (its versions differ: the frame replaces the one that is
    there, or is merged with it, or is filed under another key). *)
Class Host : Type := {
  child : list string -> filesystem -> res Completed * filesystem;
  temp_name : filesystem -> string;
  add_taken : gmap string Frame -> Frame -> gmap string Frame
}.

(** The state-and-exception monad of the module's code. *)
Definition M (A : Type) : Type := world -> res A * world.

Definition ret {A : Type} (a : A) : M A := fun w => (Ok a, w).
Definition raise {A : Type} (e : exn) : M A := fun w => (Raise e, w).
Definition bind {A B : Type} (m : M A) (k : A -> M B) : M B :=
  fun w =>
    match m w with
    | (Ok a, w') => k a w'
    | (Raise e, w') => (Raise e, w')
    end.
Definition lift {A : Type} (r : res A) : M A := fun w => (r, w).
Definition gets {A : Type} (f : world -> A) : M A := fun w => (Ok (f w), w).
Definition modify (f : world -> world) : M unit := fun w => (Ok tt, f w).

(** [try: body finally: cleanup] *)
Definition try_finally {A : Type} (body : M A) (cleanup : M unit) : M A :=
  fun w =>
    match body w with
    | (r, w') =>
        match cleanup w' with
        | (Ok _, w'') => (r, w'')
        | (Raise e, w'') => (Raise e, w'')
        end
    end.

Declare Scope M_scope.
Delimit Scope M_scope with M.
Notation "x <- m ;; k" := (bind m (fun x => k))
  (at level 100, m at next level, right associativity) : M_scope.
Notation "m ;;; k" := (bind m (fun _ => k))
  (at level 100, right associativity) : M_scope.

(** [for x in l: body(x)] *)
Fixpoint for_each {A : Type} (l : list A) (body : A -> M unit) : M unit :=
  match l with
  | [] => ret tt
  | x :: l' => bind (body x) (fun _ => for_each l' body)
  end.

(** [[body(x) for x in l]] *)
Fixpoint map_M {A B : Type} (body : A -> M B) (l : list A) : M (list B) :=
  match l with
  | [] => ret []
  | x :: l' => bind (body x) (fun y => bind (map_M body l') (fun ys => ret (y :: ys)))
  end.

Definition set_fs (f : filesystem -> filesystem) (w : world) : world :=
  {| w_fs := f (w_fs w); w_spawned := w_spawned w; w_console := w_console w |}.

(** [click.secho(line, ...)] *)
Definition secho (line : string) : M unit :=
  modify (fun w => {| w_fs := w_fs w; w_spawned := w_spawned w;
                      w_console := w_console w ++ [line] |}).

Module Os.

Definition is_file (n : node) : bool :=
  match n with
  | Dir => false
  | _ => true
  end.

(** [os.path.isdir(p)] *)
Definition isdir (p : string) : M bool :=
  gets (fun w => match w_fs w !! Pathlib.Path p with
                 | Some Dir => true
                 | _ => false
                 end).

(** [os.path.exists(p)] *)
Definition exists_ (p : string) : M bool :=
  gets (fun w => bool_decide (is_Some (w_fs w !! p))).

(** [os.unlink(p)] *)
Definition unlink (p : string) : M unit :=
  fun w =>
    match w_fs w !! p with
    | Some Dir | None => (Raise (OSError p), w)
    | Some _ => (Ok tt, set_fs (delete p) w)
    end.

(** The entries strictly below directory [top], with their nodes. *)
Definition entries_below (top : string) (fs : filesystem) : list (string * node) :=
  filter (λ kv, PyStr.startswith (Pathlib.below (Pathlib.Path top)) kv.1 = true)
         (map_to_list fs).

(** The names of the files below directory [top]. *)
Definition files_below (top : string) (fs : filesystem) : list string :=
  (λ kv, OsPath.basename kv.1) <$>
    filter (λ kv, is_file kv.2 = true) (entries_below top fs).

(** The names [f] that [for _root, _, files in os.walk(path): for f in
    files] goes through. *)
Definition walk_files (path : string) : M (list string) :=
  gets (fun w => files_below path (w_fs w)).

(** [list(Path(top).rglob("*"))], each path with [is_file()]. *)
Definition rglob_all (top : string) : M (list (string * bool)) :=
  gets (fun w => (λ kv, (kv.1, is_file kv.2)) <$> entries_below top (w_fs w)).

(** [sorted(Path(top).rglob("*.flac"))] *)
Definition sorted_rglob_flac (top : string) : M (list string) :=
  gets (fun w =>
          merge_sort Pathlib.le
            (filter (λ p, Pathlib.matches_star_flac p = true)
                    ((entries_below top (w_fs w)).*1))).

(** The directories that [mkdir(parents=True)] goes through for [p]:
    [p] and its ancestors, outermost first. *)
Fixpoint prefixes (acc : string) (comps : list string) : list string :=
  match comps with
  | [] => []
  | c :: comps' =>
      let here := if String.eqb acc "" then c else
                    if String.eqb acc "/" then acc ++ c else acc ++ "/" ++ c in
      let here := if String.eqb here "" then "/" else here in
      here :: prefixes here comps'
  end.

(** [Path(p).mkdir(parents=True, exist_ok=True)] *)
Definition mkdir_p (p : string) : M unit :=
  for_each (prefixes "" (Pathlib.parts p))
    (fun d w =>
       match w_fs w !! d with
       | Some Dir => (Ok tt, w)
       | Some _ => (Raise (OSError d), w)
       | None => (Ok tt, set_fs (insert d Dir) w)
       end).

(** [shutil.copy(src, dst)]: when [dst] is a directory the file goes
    into it, under the name of [src].  The copy raises when [src] is no
    file, when it would be onto [src] itself or onto a directory, and when
    the directory of the target is not there. *)
Definition copy (src dst : string) : M unit :=
  fun w =>
    let target := match w_fs w !! dst with
                  | Some Dir => OsPath.join dst (OsPath.basename src)
                  | _ => dst
                  end in
    match w_fs w !! src with
    | Some Dir | None => (Raise (OSError src), w)
    | Some n =>
        if String.eqb src target then (Raise (OSError target), w)
        else
          match w_fs w !! target, w_fs w !! Pathlib.parent target with
          | Some Dir, _ => (Raise (OSError target), w)
          | _, Some Dir => (Ok tt, set_fs (insert target n) w)
          | _, _ => (Raise (OSError target), w)
          end
    end.

(** [with tempfile.NamedTemporaryFile(delete=False, suffix=".wav") as
    tmp: tmp_path = tmp.name]: an empty file is left under the name. *)
Definition named_temporary_file `{Host} : M string :=
  fun w =>
    let tmp_path := temp_name (w_fs w) in
    (Ok tmp_path, set_fs (insert tmp_path (OtherFile "")) w).

(** [await anyio.run_process(cmd, check=False)] *)
Definition run_process `{Host} (cmd : list string) : M Completed :=
  fun w =>
    let '(r, fs') := child cmd (w_fs w) in
    (r, {| w_fs := fs'; w_spawned := w_spawned w ++ [cmd];
           w_console := w_console w |}).

End Os.

(** ** The tag library *)

Module Mutagen.

(** [flac.FLAC(path)] *)
Definition FLAC_open (path : string) : M FLAC :=
  fun w =>
    match w_fs w !! path with
    | Some (FlacFile f) => (Ok f, w)
    | _ => (Raise (MutagenError path), w)
    end.

(** [mp3.MP3(path)] *)
Definition MP3_open (path : string) : M MP3 :=
  fun w =>
    match w_fs w !! path with
    | Some (Mp3File m) => (Ok m, w)
    | _ => (Raise (MutagenError path), w)
    end.

Definition with_tags (m : MP3) (t : option (gmap string Frame)) : MP3 :=
  {| mp3_tags := t; mp3_v2_version := mp3_v2_version m; mp3_has_v1 := mp3_has_v1 m |}.

(** [mp3_thing.add_tags()] *)
Definition add_tags (m : MP3) : res MP3 :=
  match mp3_tags m with
  | None => Ok (with_tags m (Some ∅))
  | Some _ => Raise (MutagenError "an ID3 tag already exists")
  end.

(** [frame.HashKey]: the identifier of a text frame, followed by the
    description for [TXXX] and [APIC]; a [COMM] frame made without a
    description and a language has the empty description and the
    language [XXX]. *)
Definition HashKey (f : Frame) : string :=
  match f with
  | TextFrame frame_name _ _ =>
      if String.eqb frame_name "COMM" then "COMM::XXX" else frame_name
  | TXXX _ desc _ => "TXXX:" ++ desc
  | APIC _ _ _ desc _ => "APIC:" ++ desc
  end.

(** [tags.add(frame)]: the frame is filed under its hash key when the
    key is free. *)
Definition add `{Host} (frames : gmap string Frame) (f : Frame) : gmap string Frame :=
  match frames !! HashKey f with
  | None => <[HashKey f := f]> frames
  | Some _ => add_taken frames f
  end.

(** [mp3_thing.save(v1=..., v2_version=...)]: with [v1=0] an ID3v1 tag
    is removed, with [v1=1] it is kept as found, with [v1=2] written. *)
Definition save (path : string) (m : MP3) (v1 v2_version : Z) : M unit :=
  modify (set_fs (insert path
    (Mp3File {| mp3_tags := mp3_tags m;
                mp3_v2_version := v2_version;
                mp3_has_v1 := if v1 =? 0 then false
                              else if v1 =? 1 then mp3_has_v1 m else true |}))).

End Mutagen.

(** ** The module *)

(** Vorbis comment to ID3v2 frame mapping *)
Definition VORBIS_TO_ID3_MAP : gmap string string :=
  list_to_map
    [ ("title", "TIT2"); ("album", "TALB"); ("artist", "TPE1");
      ("albumartist", "TPE2"); ("album artist", "TPE2"); ("conductor", "TPE3");
      ("remixer", "TPE4"); ("composer", "TCOM"); ("tracknumber", "TRCK");
      ("discnumber", "TPOS"); ("date", "TDRC"); ("comment", "COMM");
      ("genre", "TCON"); ("language", "TLAN"); ("key", "TKEY"); ("bpm", "TBPM");
      ("publisher", "TPUB"); ("label", "TPUB"); ("isrc", "TSRC") ].

(** A FLAC file to be transcoded to MP3. *)
Record TranscodeItem : Type := {
  src : string;
  dst : string;
  flac_obj : FLAC;
  tags : tagdict
}.

(** The test of the Lossless Validator on a file name:
    [os.path.splitext(f)[1].lower() in LOSSY_EXTENSIONS]. *)
Definition is_lossy_name (f : string) : bool :=
  let ext := PyStr.lower (OsPath.splitext_ext f) in
  bool_decide (ext ∈ LOSSY_EXTENSIONS).

(** The body of the loop of [_validate_lossless]. *)
Definition check_name (f : string) : M unit :=
  (if is_lossy_name f then
     secho ("A lossy file was found in the folder (" ++ f ++ ").") ;;;
     raise Abort
   else ret tt)%M.

Definition _validate_lossless (path : string) : M unit :=
  (files <- Os.walk_files path ;;
   for_each files check_name)%M.

Definition _get_id3_frame (tag_name : string) (tag_value : list string) : Frame :=
  match VORBIS_TO_ID3_MAP !! tag_name with
  | Some frame_name => TextFrame frame_name 3 tag_value
  | None => TXXX 3 tag_name tag_value
  end.

Definition _parse_flac_tags (flac_path : string) : M (FLAC * tagdict) :=
  (fl <- Mutagen.FLAC_open flac_path ;;
   match flac_tags fl with
   | None => raise (ValueError ("FLAC file has no tags: " ++ flac_path))
   | Some OtherTags => raise (ValueError ("FLAC tags are not VCommentDict: " ++ flac_path))
   | Some (VCFLACDict d) => t <- lift (_prepare_tags d) ;; ret (fl, t)
   end)%M.

(** The body of the loop of [_collect_transcode_items]. *)
Definition collect_one (src_path dst_path flac_file : string) : M TranscodeItem :=
  (parsed <- _parse_flac_tags flac_file ;;
   rel <- lift (Pathlib.relative_to src_path flac_file) ;;
   let mp3_path := Pathlib.joinpath dst_path (Pathlib.with_suffix ".mp3" rel) in
   ret {| src := flac_file; dst := mp3_path;
          flac_obj := parsed.1; tags := parsed.2 |})%M.

Definition _collect_transcode_items (path new_path : string) : M (list TranscodeItem) :=
  let src_path := Pathlib.Path path in
  let dst_path := Pathlib.Path new_path in
  (files <- Os.sorted_rglob_flac src_path ;;
   map_M (collect_one src_path dst_path) files)%M.

(** [APIC(encoding=3, mime=pic.mime, type=pic.type, desc=pic.desc, data=pic.data)] *)
Definition apic_of (pic : Picture) : Frame :=
  APIC 3 (pic_mime pic) (pic_type pic) (pic_desc pic) (pic_data pic).

(** The frames that the two loops of [_copy_tags] add, in order.  Python
    goes through [tag_dict.items()] in insertion order, which a [gmap]
    does not keep: the embedding goes through [map_to_list].  The order
    tells on the saved tag only where two frames have one hash key. *)
Definition frames_to_add (tag_dict : tagdict) (flac_obj : FLAC) : list Frame :=
  ((λ kv, _get_id3_frame kv.1 kv.2) <$> map_to_list tag_dict)
    ++ (apic_of <$> flac_pictures flac_obj).

(** The tag of the MP3 file at a path. *)
Definition tag_at (fs : filesystem) (p : string) : option (gmap string Frame) :=
  match fs !! p with
  | Some (Mp3File m) => mp3_tags m
  | _ => None
  end.

(** [not mp3_thing.tags]: there is no tag, or it has no frame. *)
Definition no_tags (m : MP3) : bool :=
  match mp3_tags m with
  | None => true
  | Some frames => bool_decide (frames = ∅)
  end.

Definition _copy_tags `{Host} (tag_dict : tagdict) (flac_obj : FLAC) (mp3_path : string)
  : M unit :=
  (mp3_thing <- Mutagen.MP3_open mp3_path ;;
   secho ("     Copy tags: " ++ mp3_path) ;;;
   mp3_thing <- (if no_tags mp3_thing then lift (Mutagen.add_tags mp3_thing)
                 else ret mp3_thing) ;;
   match mp3_tags mp3_thing with
   | None => raise (ValueError ("Failed to create tags for MP3 file: " ++ mp3_path))
   | Some frames =>
       let frames := foldl Mutagen.add frames (frames_to_add tag_dict flac_obj) in
       Mutagen.save mp3_path (Mutagen.with_tags mp3_thing (Some frames)) 0 ID3V2_VERSION
   end)%M.

(** The test of the Auxiliary Copier on a path:
    [p.suffix.lower() in COPY_EXTENSIONS]. *)
Definition is_sidecar (p : string) : bool :=
  bool_decide (PyStr.lower (Pathlib.suffix p) ∈ COPY_EXTENSIONS).

(** The generator [rglob] is run to its end before the copies start. *)
Definition _copy_extra_files (path new_path : string) : M unit :=
  let src_path := Pathlib.Path path in
  let dst_path := Pathlib.Path new_path in
  (ps <- Os.rglob_all src_path ;;
   for_each ps (fun p =>
     if negb p.2 || negb (is_sidecar p.1)
     then ret tt
     else
       rel <- lift (Pathlib.relative_to src_path p.1) ;;
       secho ("Copy " ++ rel) ;;;
       let out := Pathlib.joinpath dst_path rel in
       Os.mkdir_p (Pathlib.parent out) ;;;
       Os.copy p.1 out))%M.

Definition flac_cmd (tmp_path flac_path : string) : list string :=
  (["flac"] ++ FLAC_DECODE_OPTIONS ++ ["-o"; tmp_path; flac_path])%list.

Definition lame_cmd (preset : list string) (tmp_path mp3_path : string) : list string :=
  (["lame"] ++ preset ++ LAME_OPTIONS ++ [tmp_path; mp3_path])%list.

(** [LAME_COMMAND_MAP[lame_qual]] *)
Definition lame_preset (lame_qual : string) : res (list string) :=
  match LAME_COMMAND_MAP !! lame_qual with
  | Some preset => Ok preset
  | None => Raise (KeyError lame_qual)
  end.

(** [result.stderr.decode() if result.stderr else default] *)
Definition decoded_or (default : string) (captured : string) : res string :=
  if String.eqb captured "" then Ok default else PyBytes.decode captured.

(** The body of the [try] block of [_flac_to_mp3]. *)
Definition decode_then_encode `{Host} (lame_qual flac_path mp3_path tmp_path : string) : M unit :=
  (flac_result <- Os.run_process (flac_cmd tmp_path flac_path) ;;
   (if negb (returncode flac_result =? 0) then
      err <- lift (decoded_or "" (stderr flac_result)) ;;
      (if negb (String.eqb err "") then secho err else ret tt) ;;;
      raise (RuntimeError ("FLAC decoding failed with code "
                             ++ PyInt.str (returncode flac_result)))
    else ret tt) ;;;
   preset <- lift (lame_preset lame_qual) ;;
   lame_result <- Os.run_process (lame_cmd preset tmp_path mp3_path) ;;
   if negb (returncode lame_result =? 0) then
     msg <- lift (decoded_or "LAME encoding failed" (stderr lame_result)) ;;
     raise (RuntimeError msg)
   else ret tt)%M.

(** The [finally] block of [_flac_to_mp3]. *)
Definition remove_temp (tmp_path : string) : M unit :=
  (there <- Os.exists_ tmp_path ;;
   if there then Os.unlink tmp_path else ret tt)%M.

Definition _flac_to_mp3 `{Host} (lame_qual flac_path mp3_path : string) : M unit :=
  (Os.mkdir_p (Pathlib.parent (Pathlib.Path mp3_path)) ;;;
   tmp_path <- Os.named_temporary_file ;;
   try_finally (decode_then_encode lame_qual flac_path mp3_path tmp_path)
               (remove_temp tmp_path))%M.

(** Modelled from the spec: [salmon.common.files.process_files] is not
    among the sources.  The specification describes the batch runner as
    accepting an ordered list of work keys, a per-key unit of work and a
    label, returning once all units have run and surfacing the aggregated
    failures, without cancelling the siblings of a failed unit.  The
    units are run one after the other here. *)
Fixpoint run_units (fn : string -> nat -> M unit) (idx : nat) (keys failed : list string)
  : M (list string) :=
  match keys with
  | [] => ret failed
  | key :: keys' =>
      fun w =>
        match fn key idx w with
        | (Ok _, w') => run_units fn (S idx) keys' failed w'
        | (Raise _, w') => run_units fn (S idx) keys' (failed ++ [key]) w'
        end
  end.

Definition process_files (keys : list string) (fn : string -> nat -> M unit) (label : string)
  : M unit :=
  (failed <- run_units fn 0 keys [] ;;
   match failed with
   | [] => ret tt
   | _ => raise (BatchError failed)
   end)%M.

(** [items[idx]] *)
Definition item_at (items : list TranscodeItem) (idx : nat) : res TranscodeItem :=
  match items !! idx with
  | Some item => Ok item
  | None => Raise IndexError
  end.

Definition channel_message (item : TranscodeItem) : string :=
  src item ++ " has " ++ PyInt.str (info_channels (flac_obj item))
    ++ " channels. Cannot convert to MP3.".

(** The closure [_transcode_one] of [_transcode_audio_files], with the
    [items] and [bitrate] it captures. *)
Definition _transcode_one `{Host} (items : list TranscodeItem) (bitrate : string)
    (file : string) (idx : nat) : M unit :=
  (item <- lift (item_at items idx) ;;
   if 2 <? info_channels (flac_obj item) then
     raise (ValueError (channel_message item))
   else
     secho ("Encoding: " ++ dst item) ;;;
     _flac_to_mp3 bitrate (src item) (dst item) ;;;
     _copy_tags (tags item) (flac_obj item) (Pathlib.Path (dst item)))%M.

Definition _transcode_audio_files `{Host} (items : list TranscodeItem) (bitrate : string)
  : M unit :=
  match items with
  | [] => ret tt
  | _ =>
      let file_paths := src <$> items in
      process_files file_paths (_transcode_one items bitrate) "Transcoding"
  end.

Definition transcode_folder `{Host} (path bitrate : string) : M string :=
  (_validate_lossless path ;;;
   let new_path := _build_output_path path bitrate in
   there <- Os.isdir new_path ;;
   if there then
     secho (new_path ++ " already exists.") ;;;
     ret new_path
   else
     items <- _collect_transcode_items path new_path ;;
     _copy_extra_files path new_path ;;;
     _transcode_audio_files items bitrate ;;;
     ret new_path)%M.

Definition newline : string := String "010"%char "".

(** The dictionary literal of [generate_transcode_description]. *)
Definition described_lame_command : gmap string string :=
  list_to_map
    [ ("320", "-h -b 320 --ignore-tag-errors");
      ("V0", "-V 0 --vbr-new --ignore-tag-errors") ].

Definition generate_transcode_description (url bitrate : string) : res string :=
  match described_lame_command !! bitrate with
  | None => Raise (KeyError bitrate)
  | Some lame_command =>
      Ok ("[b]Source:[/b] " ++ url ++ newline
          ++ "[b]Transcode process:[/b] "
          ++ "[code]flac -dcs -- input.flac | lame -S " ++ lame_command
          ++ " - output.mp3[/code]" ++ newline)
  end.

(** ** A sample host and album, for the concrete runs *)

Module Sample.

Definition done (code : Z) (err : string) : Completed :=
  {| returncode := code; stderr := err |}.

Definition fresh_mp3 : MP3 :=
  {| mp3_tags := None; mp3_v2_version := 3; mp3_has_v1 := false |}.

(** [flac ... -o tmp src] writes the decoded audio to [tmp], and [lame
    ... tmp dst] an MP3 file without a tag to [dst], when their input
    is there; they fail with a message otherwise. *)
Definition decoder_encoder (cmd : list string) (fs : filesystem)
  : res Completed * filesystem :=
  match cmd with
  | ["flac"; _; "-o"; tmp_path; flac_path] =>
      match fs !! flac_path with
      | Some (FlacFile _) => (Ok (done 0 ""), <[tmp_path := OtherFile "RIFF"]> fs)
      | _ => (Ok (done 1 "ERROR: cannot open input"), fs)
      end
  | "lame" :: args =>
      match reverse args with
      | mp3_path :: tmp_path :: _ =>
          match fs !! tmp_path with
          | Some (OtherFile "RIFF") => (Ok (done 0 ""), <[mp3_path := Mp3File fresh_mp3]> fs)
          | _ => (Ok (done 1 "lame: unsupported input"), fs)
          end
      | _ => (Ok (done 1 "usage"), fs)
      end
  | _ => (Raise (OSError (PyStr.join " " cmd)), fs)
  end.

(** The sample tag library puts the new frame in the place of the one
    that has its key. *)
Definition host : Host :=
  {| child := decoder_encoder; temp_name := fun _ => "/tmp/t.wav";
     add_taken := fun frames f => <[Mutagen.HashKey f := f]> frames |}.

Definition cover : Picture :=
  {| pic_mime := "image/jpeg"; pic_type := 3; pic_desc := ""; pic_data := "JFIF" |}.

Definition track (ch : Z) (d : list (string * list string)) : FLAC :=
  {| info_channels := ch; flac_tags := Some (VCFLACDict (list_to_map d));
     flac_pictures := [cover] |}.

Definition world_of (entries : list (string * node)) : world :=
  {| w_fs := list_to_map entries; w_spawned := []; w_console := [] |}.

Definition one : FLAC := track 2 [("tracknumber", ["1"]); ("tracktotal", ["2"])].
Definition two : FLAC := track 2 [("tracknumber", ["2"]); ("tracktotal", ["2"])].

(** An album in [/cd]: a track, a track with an upper-case extension and
    a cover. *)
Definition album : world :=
  world_of
    [ ("/", Dir); ("/tmp", Dir); ("/cd", Dir);
      ("/cd/01.flac", FlacFile one);
      ("/cd/02.FLAC", FlacFile two);
      ("/cd/cover.JPG", OtherFile "JFIF") ].

(** The item that the collector makes of the first track. *)
Definition first_item : TranscodeItem :=
  {| src := "/cd/01.flac"; dst := "/cd [MP3 V0]/01.mp3"; flac_obj := one;
     tags := {[ "tracknumber" := ["1/2"] ]} |}.

End Sample.

(** ** Predicates on exceptions and steps *)

(** The exceptions of [int(result[t][0])] for a key that is there. *)
Definition unreadable (e : exn) : Prop :=
  e = IndexError ∨ ∃ literal, e = IntValueError literal.

(** A step that spawns nothing and removes no entry of the file system. *)
Definition harmless {A : Type} (m : M A) : Prop :=
  ∀ w, w_spawned (m w).2 = w_spawned w
       ∧ ∀ p, is_Some (w_fs w !! p) → is_Some (w_fs (m w).2 !! p).



(** * Properties *)

(** ** The Tag Normalizer *)

(** ** Strings *)

Section Strings.

Lemma prefix_app (a b : string) : String.prefix a (a ++ b) = true.
Proof.
  induction a as [|c a IH]; simpl; [by destruct b|].
  destruct (ascii_dec c c); [done|congruence].
Qed.

Lemma prefix_app_r (n s q : string) :
  String.prefix n s = true → String.prefix n (s ++ q) = true.
Proof.
  revert s. induction n as [|c n IH]; intros s; simpl.
  - by destruct (s ++ q).
  - destruct s as [|c' s]; [done|]. simpl.
    destruct (ascii_dec c c'); [apply IH|done].
Qed.

Lemma contains_here (n s : string) :
  String.prefix n s = true → PyStr.contains n s = true.
Proof. intros H. destruct s; cbn [PyStr.contains]; rewrite H; done. Qed.

Lemma contains_app_l (n s q : string) :
  PyStr.contains n s = true → PyStr.contains n (s ++ q) = true.
Proof.
  induction s as [|c s IH]; cbn [PyStr.contains].
  - rewrite orb_false_r. intros H. apply contains_here.
    by apply (prefix_app_r n "" q).
  - intros [H|H]%orb_true_iff;
      change (String c s ++ q) with (String c (s ++ q)); cbn [PyStr.contains];
      apply orb_true_iff.
    + left. by apply (prefix_app_r n (String c s) q).
    + right. by apply IH.
Qed.

Lemma contains_app_r (n p s : string) :
  PyStr.contains n s = true → PyStr.contains n (p ++ s) = true.
Proof.
  intros H. induction p as [|c p IH]; [done|].
  change (String c p ++ s) with (String c (p ++ s)). cbn [PyStr.contains].
  rewrite IH. apply orb_true_r.
Qed.

Lemma contains_join (sep k : string) (l : list string) :
  k ∈ l → PyStr.contains k (PyStr.join sep l) = true.
Proof.
  induction l as [|x l IH]; intros Hk; [by apply elem_of_nil in Hk|].
  apply elem_of_cons in Hk as [->|Hk].
  - destruct l as [|y l]; simpl.
    + apply contains_here. clear. induction x as [|c x IH]; simpl; [done|].
      destruct (ascii_dec c c); [done|congruence].
    + apply contains_here, prefix_app.
  - destruct l as [|y l]; [by apply elem_of_nil in Hk|].
    change (PyStr.join sep (x :: y :: l)) with (x ++ sep ++ PyStr.join sep (y :: l)).
    by apply contains_app_r, contains_app_r, IH.
Qed.

End Strings.

(** Case analysis on an entry of [_TOT_MAP], and on a key of a list
    that is written out. *)
Ltac tot_cases H :=
  unfold _TOT_MAP in H; rewrite !elem_of_cons, elem_of_nil in H;
  destruct H as [[= -> ->]|[[= -> ->]|[]]].
Ltac key_cases H :=
  repeat (apply elem_of_cons in H; destruct H as [->|H]);
  try (by apply elem_of_nil in H).

Section TagNormalizer.
Implicit Types (d result r : tagdict) (k tag : string) (tots used : list string).

Lemma lookup_drop_unwanted d k :
  unwanted k = false → drop_unwanted d !! k = d !! k.
Proof.
  intros Hk. unfold drop_unwanted.
  destruct (d !! k) as [v|] eqn:E.
  - by apply map_lookup_filter_Some.
  - apply map_lookup_filter_None. left. done.
Qed.

Lemma lookup_drop_unwanted_gone d k :
  unwanted k = true → drop_unwanted d !! k = None.
Proof.
  intros Hk. apply map_lookup_filter_None. right. intros v _. simpl. congruence.
Qed.

Lemma elem_of_used_keys tots d k :
  k ∈ used_keys tots d ↔ k ∈ tots ∧ is_Some (d !! k).
Proof. unfold used_keys. rewrite list_elem_of_filter. tauto. Qed.

Lemma used_keys_ext tots d1 d2 :
  (∀ k, k ∈ tots → d1 !! k = d2 !! k) → used_keys tots d1 = used_keys tots d2.
Proof.
  induction tots as [|t tots IH]; intros H; [done|].
  unfold used_keys in *. rewrite !filter_cons.
  rewrite (H t) by left. rewrite IH; [done|].
  intros k Hk. apply H. by right.
Qed.

Lemma lookup_without d used k :
  filter (λ kv : string * list string, kv.1 ∉ used) d !! k
  = if decide (k ∈ used) then None else d !! k.
Proof.
  destruct (decide (k ∈ used)) as [Hin|Hout].
  - apply map_lookup_filter_None. right. intros v _. simpl. tauto.
  - destruct (d !! k) as [v|] eqn:E.
    + by apply map_lookup_filter_Some.
    + apply map_lookup_filter_None. by left.
Qed.

Lemma total_of_Ok d k z : total_of d k = Ok z ↔ first_total d k = Some z.
Proof.
  unfold total_of, first_total, getitem, first, PyInt.int.
  destruct (d !! k) as [[|x v]|]; simpl; try (split; discriminate).
  destruct (PyInt.parse x); simpl; split; congruence.
Qed.

Lemma total_of_ext d1 d2 k : d1 !! k = d2 !! k → total_of d1 k = total_of d2 k.
Proof. unfold total_of, getitem. by intros ->. Qed.

Lemma res_map_ext {A B} (f g : A → res B) (l : list A) :
  (∀ x, x ∈ l → f x = g x) → res_map f l = res_map g l.
Proof.
  induction l as [|x l IH]; intros H; [done|]. simpl.
  rewrite (H x) by left. rewrite IH; [done|]. intros y Hy. apply H. by right.
Qed.

Lemma res_map_total_of_all d l (f : string → Z) :
  (∀ k, k ∈ l → first_total d k = Some (f k)) →
  res_map (total_of d) l = Ok (f <$> l).
Proof.
  induction l as [|k l IH]; intros H; [done|]. simpl.
  assert (total_of d k = Ok (f k)) as -> by (apply total_of_Ok, H; left).
  simpl. rewrite IH; [done|]. intros k' Hk'. apply H. by right.
Qed.

Lemma elements_all_equal (vals : list Z) t :
  vals ≠ [] → (∀ z, z ∈ vals → z = t) →
  elements (list_to_set vals : gset Z) = [t].
Proof.
  intros Hne Hall.
  assert (list_to_set vals = ({[ t ]} : gset Z)) as ->.
  { apply set_eq. intros z. rewrite elem_of_list_to_set, elem_of_singleton.
    split; [by apply Hall|]. intros ->.
    destruct vals as [|z vals]; [done|].
    rewrite (Hall z) by left. left. }
  apply elements_singleton.
Qed.

Lemma elements_single_inv (vals : list Z) t z :
  elements (list_to_set vals : gset Z) = [t] → z ∈ vals → z = t.
Proof.
  intros H Hz.
  assert (z ∈ elements (list_to_set vals : gset Z)) as Hin
      by by apply elem_of_elements, elem_of_list_to_set.
  rewrite H in Hin. by apply list_elem_of_singleton in Hin.
Qed.

(** The four ways through the body of the loop. *)

Lemma merge_totals_skip d tag tots :
  d !! tag = None → merge_totals d (tag, tots) = Ok d.
Proof. intros H. unfold merge_totals. by rewrite H. Qed.

Lemma merge_totals_bare d tag tots :
  used_keys tots d = [] → merge_totals d (tag, tots) = Ok d.
Proof. intros H. unfold merge_totals. rewrite H. by destruct (d !! tag). Qed.

Lemma merge_totals_agree d tag tots nr rest t :
  tag ∉ tots →
  d !! tag = Some (nr :: rest) →
  used_keys tots d ≠ [] →
  (∀ k, k ∈ used_keys tots d → first_total d k = Some t) →
  merge_totals d (tag, tots)
  = Ok (<[tag := [nr ++ "/" ++ PyInt.str t]]>
          (filter (λ kv : string * list string, kv.1 ∉ used_keys tots d) d)).
Proof.
  intros Htag Hnr Hused Hall. unfold merge_totals. rewrite Hnr.
  destruct (used_keys tots d) as [|u used] eqn:E; [done|].
  rewrite (res_map_total_of_all d (u :: used) (λ _, t)) by done. cbn [res_bind].
  rewrite (elements_all_equal _ t).
  - unfold getitem. rewrite lookup_without.
    rewrite decide_False.
    + rewrite Hnr. done.
    + rewrite <- E. rewrite elem_of_used_keys. tauto.
  - done.
  - intros z [k [-> _]]%list_elem_of_fmap. done.
Qed.

Lemma merge_totals_conflict d tag tots k1 k2 :
  is_Some (d !! tag) →
  (∀ k, k ∈ used_keys tots d → is_Some (first_total d k)) →
  k1 ∈ used_keys tots d → k2 ∈ used_keys tots d →
  first_total d k1 ≠ first_total d k2 →
  merge_totals d (tag, tots)
  = Raise (ValueError (conflict_message (used_keys tots d))).
Proof.
  intros [v Hv] Hall H1 H2 Hne. unfold merge_totals. rewrite Hv.
  destruct (used_keys tots d) as [|u used] eqn:E; [by apply elem_of_nil in H1|].
  rewrite (res_map_total_of_all d (u :: used) (λ k, default 0 (first_total d k))).
  2:{ intros k Hk. destruct (Hall k Hk) as [z ->]. done. }
  cbn [res_bind].
  destruct (elements _) as [|total [|total' rest]] eqn:Els; [done| |done].
  exfalso. apply Hne.
  destruct (Hall k1 H1) as [z1 Hz1], (Hall k2 H2) as [z2 Hz2].
  rewrite Hz1, Hz2. f_equal.
  transitivity total; [|symmetry].
  - eapply elements_single_inv; [exact Els|].
    apply list_elem_of_fmap. exists k1. by rewrite Hz1.
  - eapply elements_single_inv; [exact Els|].
    apply list_elem_of_fmap. exists k2. by rewrite Hz2.
Qed.

(** What a merge that returns has done to the dictionary. *)
Lemma merge_totals_Ok_inv d tag tots r :
  tag ∉ tots →
  merge_totals d (tag, tots) = Ok r →
  (is_Some (d !! tag) → ∀ k, k ∈ tots → r !! k = None)
  ∧ (d !! tag = None → r = d)
  ∧ (is_Some (r !! tag) ↔ is_Some (d !! tag))
  ∧ (∀ k, k ∉ tots → k ≠ tag → r !! k = d !! k).
Proof.
  intros Htag. unfold merge_totals.
  destruct (d !! tag) as [v|] eqn:Hv.
  2:{ intros [= <-]. rewrite Hv. repeat split; try done. }
  destruct (used_keys tots d) as [|u used] eqn:E.
  { intros [= <-]. rewrite Hv. repeat split; try done.
    intros _ k Hk. destruct (d !! k) eqn:Hdk; [|done].
    assert (k ∈ used_keys tots d) as Hin by (apply elem_of_used_keys; eauto).
    rewrite E in Hin. by apply elem_of_nil in Hin. }
  destruct (res_map _ _) as [vals|e]; [cbn [res_bind]|discriminate].
  destruct (elements _) as [|total [|total' rest]]; [discriminate| |discriminate].
  unfold getitem. rewrite lookup_without. rewrite decide_False.
  2:{ rewrite <- E, elem_of_used_keys. tauto. }
  rewrite Hv. cbn [res_bind].
  destruct v as [|nr v]; [discriminate|]. simpl.
  intros [= <-]. repeat split; try done.
  - intros _ k Hk. rewrite lookup_insert_ne by (intros ->; done).
    rewrite lookup_without. case_decide as Hin; [done|].
    destruct (d !! k) eqn:Hdk; [|done].
    exfalso. apply Hin. rewrite <- E. apply elem_of_used_keys. eauto.
  - intros _. by rewrite lookup_insert_eq.
  - intros k Hk Hne. rewrite lookup_insert_ne by done.
    rewrite lookup_without. rewrite decide_False; [done|].
    rewrite <- E, elem_of_used_keys. tauto.
Qed.

(** A merge reads the dictionary only at the keys of its group. *)
Lemma merge_totals_local d1 d2 tag tots :
  tag ∉ tots →
  (∀ k, k ∈ tag :: tots → d1 !! k = d2 !! k) →
  match merge_totals d1 (tag, tots), merge_totals d2 (tag, tots) with
  | Ok _, Ok _ => True
  | Raise e1, Raise e2 => e1 = e2
  | _, _ => False
  end.
Proof.
  intros Htag Hagree. unfold merge_totals.
  rewrite <- (Hagree tag) by left.
  rewrite <- (used_keys_ext tots d1 d2) by (intros k Hk; apply Hagree; by right).
  destruct (d1 !! tag) as [v|] eqn:Hv; [|done].
  destruct (used_keys tots d1) as [|u used] eqn:E; [done|].
  rewrite <- (res_map_ext (total_of d1) (total_of d2)).
  2:{ intros k Hk. apply total_of_ext, Hagree. right.
      rewrite <- E in Hk. by apply elem_of_used_keys in Hk as [? _]. }
  destruct (res_map _ _) as [vals|e]; [cbn [res_bind]|done].
  destruct (elements _) as [|total [|total' rest]]; [done| |done].
  unfold getitem. rewrite !lookup_without.
  rewrite <- (Hagree tag) by left. rewrite decide_False.
  2:{ rewrite <- E, elem_of_used_keys. tauto. }
  rewrite Hv. simpl.
  by destruct v.
Qed.

Lemma first_total_ext d1 d2 k : d1 !! k = d2 !! k → first_total d1 k = first_total d2 k.
Proof. unfold first_total. by intros ->. Qed.

(** No key of a group of [_TOT_MAP] is dropped by the filter. *)
Lemma tot_map_wanted tag tots k :
  (tag, tots) ∈ _TOT_MAP → k ∈ tag :: tots → unwanted k = false.
Proof. intros H Hk. tot_cases H; key_cases Hk; reflexivity. Qed.

(** [_prepare_tags] is the first merge followed by the second. *)
Lemma prepare_tags_unfold d :
  _prepare_tags d
  = (r1 <- merge_totals (drop_unwanted d)
             ("tracknumber", ["tracktotal"; "totaltracks"; "total tracks"]) ;;
     merge_totals r1 ("discnumber", ["disctotal"; "totaldiscs"; "total discs"]))%res.
Proof.
  unfold _prepare_tags, _TOT_MAP. cbn [res_fold].
  destruct (merge_totals (drop_unwanted d) _) as [r1|e]; [cbn [res_bind]|done].
  by destruct (merge_totals r1 _).
Qed.

(** The keys of a group, as the filter leaves them. *)
Lemma group_after_filter d tag tots :
  (tag, tots) ∈ _TOT_MAP →
  drop_unwanted d !! tag = d !! tag
  ∧ used_keys tots (drop_unwanted d) = used_keys tots d
  ∧ ∀ k, k ∈ tots → drop_unwanted d !! k = d !! k.
Proof.
  intros H.
  assert (∀ k, k ∈ tag :: tots → drop_unwanted d !! k = d !! k) as Hlk.
  { intros k Hk. apply lookup_drop_unwanted. by eapply tot_map_wanted. }
  split; [apply Hlk; left|]. split.
  - apply used_keys_ext. intros k Hk. apply Hlk. by right.
  - intros k Hk. apply Hlk. by right.
Qed.

(** What [_prepare_tags] leaves of a group when it returns. *)
Lemma prepare_tags_group d r tag tots :
  _prepare_tags d = Ok r →
  (tag, tots) ∈ _TOT_MAP →
  (is_Some (d !! tag) → ∀ k, k ∈ tots → r !! k = None)
  ∧ (d !! tag = None → ∀ k, k ∈ tots → r !! k = d !! k)
  ∧ (is_Some (r !! tag) ↔ is_Some (d !! tag)).
Proof.
  rewrite prepare_tags_unfold. intros Hr Hin.
  destruct (merge_totals (drop_unwanted d) _) as [r1|e] eqn:E1; [cbn [res_bind] in Hr|done].
  apply merge_totals_Ok_inv in E1 as (T1 & T2 & T3 & T4); [|compute_done].
  apply merge_totals_Ok_inv in Hr as (D1 & D2 & D3 & D4); [|compute_done].
  destruct (group_after_filter d tag tots Hin) as (Ftag & _ & Fk).
  tot_cases Hin.
  - rewrite Ftag in *. split; [|split].
    + intros Hs k Hk. rewrite D4; [by apply T1|..]; key_cases Hk; compute_done.
    + intros Hn k Hk. rewrite D4; [|key_cases Hk; compute_done..].
      rewrite (T2 Hn). by apply Fk.
    + rewrite <- T3. rewrite D4; [done|compute_done..].
  - assert (r1 !! "discnumber" = d !! "discnumber") as Hr1.
    { rewrite T4; [done|compute_done..]. }
    rewrite Hr1 in *. split; [|split].
    + intros Hs k Hk. by apply D1.
    + intros Hn k Hk. rewrite (D2 Hn). rewrite T4; [by apply Fk|..];
        key_cases Hk; compute_done.
    + done.
Qed.

(** The other group does not stand in the way of the merge of a group. *)
Lemma prepare_tags_agree d tag tots nr rest t :
  (tag, tots) ∈ _TOT_MAP →
  d !! tag = Some (nr :: rest) →
  used_keys tots d ≠ [] →
  (∀ entry, entry ∈ _TOT_MAP → entry ≠ (tag, tots) →
     ∃ r', merge_totals (drop_unwanted d) entry = Ok r') →
  (∀ k, k ∈ used_keys tots d → first_total d k = Some t) →
  ∃ r, _prepare_tags d = Ok r
       ∧ r !! tag = Some [nr ++ "/" ++ PyInt.str t]
       ∧ ∀ k, k ∈ tots → r !! k = None.
Proof.
  intros Hin Hnr Hused Hother Hall.
  destruct (group_after_filter d tag tots Hin) as (Ftag & Fused & Fk).
  assert (∀ k, k ∈ used_keys tots (drop_unwanted d)
               → first_total (drop_unwanted d) k = Some t) as Hall0.
  { intros k Hk. rewrite (first_total_ext _ d).
    - apply Hall. by rewrite <- Fused.
    - apply Fk. by apply elem_of_used_keys in Hk as [? _]. }
  rewrite prepare_tags_unfold. pose proof Hin as Hin'. tot_cases Hin.
  - (* the track group merges first *)
    destruct (Hother ("discnumber", ["disctotal"; "totaldiscs"; "total discs"]))
      as [r' Hr']; [compute_done|done|].
    erewrite merge_totals_agree; [|compute_done|by rewrite Ftag|by rewrite Fused|done].
    cbn [res_bind]. set (r1 := <[_ := _]> _).
    pose proof (merge_totals_local r1 (drop_unwanted d) "discnumber"
                  ["disctotal"; "totaldiscs"; "total discs"]) as Hloc.
    rewrite Hr' in Hloc.
    destruct (merge_totals r1 _) as [r|e] eqn:E2.
    2:{ exfalso. apply Hloc; [compute_done|]. intros k Hk. unfold r1.
        rewrite lookup_insert_ne by (key_cases Hk; compute_done).
        rewrite lookup_without. rewrite decide_False; [done|].
        rewrite elem_of_used_keys. key_cases Hk; compute_done. }
    exists r. split; [done|].
    apply merge_totals_Ok_inv in E2 as (_ & _ & _ & D4); [|compute_done].
    split.
    + rewrite D4; [|compute_done..]. unfold r1. by rewrite lookup_insert_eq.
    + intros k Hk. rewrite D4; [|key_cases Hk; compute_done..].
      unfold r1. rewrite lookup_insert_ne by (key_cases Hk; compute_done).
      rewrite lookup_without. case_decide as Hd; [done|].
      destruct (drop_unwanted d !! k) eqn:Hdk; [|done].
      exfalso. apply Hd. apply elem_of_used_keys. eauto.
  - (* the disc group merges second *)
    destruct (Hother ("tracknumber", ["tracktotal"; "totaltracks"; "total tracks"]))
      as [r1 Hr1]; [compute_done|done|].
    rewrite Hr1. cbn [res_bind].
    apply merge_totals_Ok_inv in Hr1 as (_ & _ & _ & T4); [|compute_done].
    assert (∀ k, k ∈ "discnumber" :: ["disctotal"; "totaldiscs"; "total discs"]
                 → r1 !! k = drop_unwanted d !! k) as Hsame.
    { intros k Hk. apply T4; key_cases Hk; compute_done. }
    erewrite merge_totals_agree.
    + eexists. split; [done|]. split.
      * by rewrite lookup_insert_eq.
      * intros k Hk. rewrite lookup_insert_ne by (key_cases Hk; compute_done).
        rewrite lookup_without. case_decide as Hd; [done|].
        destruct (r1 !! k) eqn:Hdk; [|done].
        exfalso. apply Hd. apply elem_of_used_keys. eauto.
    + compute_done.
    + rewrite Hsame by left. by rewrite Ftag.
    + rewrite (used_keys_ext _ r1 (drop_unwanted d)), Fused; [done|].
      intros k Hk. apply Hsame. by right.
    + intros k Hk. rewrite (first_total_ext r1 (drop_unwanted d)).
      * apply Hall0. rewrite <- (used_keys_ext _ r1); [done|].
        intros k' Hk'. apply Hsame. by right.
      * apply Hsame. right. by apply elem_of_used_keys in Hk as [? _].
Qed.

Lemma prepare_tags_conflict d tag tots k1 k2 :
  (tag, tots) ∈ _TOT_MAP →
  is_Some (d !! tag) →
  (∀ entry, entry ∈ _TOT_MAP → entry ≠ (tag, tots) →
     ∃ r', merge_totals (drop_unwanted d) entry = Ok r') →
  (∀ k, k ∈ used_keys tots d → is_Some (first_total d k)) →
  k1 ∈ used_keys tots d → k2 ∈ used_keys tots d →
  first_total d k1 ≠ first_total d k2 →
  _prepare_tags d = Raise (ValueError (conflict_message (used_keys tots d))).
Proof.
  intros Hin Htag Hother Hall H1 H2 Hne.
  destruct (group_after_filter d tag tots Hin) as (Ftag & Fused & Fk).
  assert (∀ k, k ∈ used_keys tots d → first_total (drop_unwanted d) k = first_total d k)
    as Hft.
  { intros k Hk. apply first_total_ext, Fk. by apply elem_of_used_keys in Hk as [? _]. }
  assert (merge_totals (drop_unwanted d) (tag, tots)
          = Raise (ValueError (conflict_message (used_keys tots d)))) as Hraise.
  { rewrite <- Fused. apply (merge_totals_conflict _ _ _ k1 k2).
    - by rewrite Ftag.
    - rewrite Fused. intros k Hk. rewrite Hft by done. by apply Hall.
    - by rewrite Fused.
    - by rewrite Fused.
    - by rewrite !Hft. }
  rewrite prepare_tags_unfold. tot_cases Hin.
  - by rewrite Hraise.
  - destruct (Hother ("tracknumber", ["tracktotal"; "totaltracks"; "total tracks"]))
      as [r1 Hr1]; [compute_done|done|].
    rewrite Hr1. cbn [res_bind].
    apply merge_totals_Ok_inv in Hr1 as (_ & _ & _ & T4); [|compute_done].
    pose proof (merge_totals_local r1 (drop_unwanted d) "discnumber"
                  ["disctotal"; "totaldiscs"; "total discs"]) as Hloc.
    rewrite Hraise in Hloc.
    destruct (merge_totals r1 _) as [r|e].
    + exfalso. apply Hloc; [compute_done|].
      intros k Hk. apply T4; key_cases Hk; compute_done.
    + f_equal. apply Hloc; [compute_done|].
      intros k Hk. apply T4; key_cases Hk; compute_done.
Qed.

End TagNormalizer.

(** ** The monad *)

Section Monad.
Context {A B : Type}.

(** A loop whose body leaves the world as it found it. *)
Lemma map_M_read_only (body : A → M B) (l : list A) (w : world) :
  (∀ x w0, (body x w0).2 = w0) →
  (map_M body l w).2 = w
  ∧ ∀ ys, (map_M body l w).1 = Ok ys → Forall2 (λ x y, body x w = (Ok y, w)) l ys.
Proof.
  intros Hro. induction l as [|x l [IHw IHr]]; simpl.
  - split; [done|]. intros ys [= <-]. constructor.
  - unfold bind. pose proof (Hro x w) as Hx.
    destruct (body x w) as [[y|e] w1] eqn:Ex; simpl in Hx; subst w1.
    + destruct (map_M body l w) as [[ys|e] w2] eqn:El; simpl in IHw; subst w2; simpl.
      * split; [done|]. intros ys' [= <-]. constructor; [done|]. by apply IHr.
      * split; [done|]. discriminate.
    + split; [done|]. discriminate.
Qed.

End Monad.

(** ** The Item Collector *)

Section Collector.

Lemma parse_flac_tags_world flac_path w : (_parse_flac_tags flac_path w).2 = w.
Proof.
  unfold _parse_flac_tags, bind, Mutagen.FLAC_open, raise, lift, ret.
  destruct (w_fs w !! flac_path) as [[|f|m|data]|]; try done.
  destruct (flac_tags f) as [[d|]|]; try done.
  by destruct (_prepare_tags d).
Qed.

Lemma parse_flac_tags_Ok flac_path w fl t w' :
  _parse_flac_tags flac_path w = (Ok (fl, t), w') →
  ∃ d, w_fs w !! flac_path = Some (FlacFile fl)
       ∧ flac_tags fl = Some (VCFLACDict d)
       ∧ _prepare_tags d = Ok t.
Proof.
  unfold _parse_flac_tags, bind, Mutagen.FLAC_open, raise, lift, ret.
  destruct (w_fs w !! flac_path) as [[|f|m|data]|]; try done.
  destruct (flac_tags f) as [[d|]|] eqn:Et; try done.
  destruct (_prepare_tags d) as [t'|e] eqn:Ep; [|done].
  intros [= <- <- <-]. eauto.
Qed.

Lemma collect_one_world src_path dst_path flac_file w :
  (collect_one src_path dst_path flac_file w).2 = w.
Proof.
  unfold collect_one, bind. pose proof (parse_flac_tags_world flac_file w) as Hw.
  destruct (_parse_flac_tags flac_file w) as [[p|e] w1]; simpl in Hw; subst w1; [|done].
  unfold lift, ret. by destruct (Pathlib.relative_to _ _).
Qed.

Lemma collect_one_Ok src_path dst_path flac_file w item w' :
  collect_one src_path dst_path flac_file w = (Ok item, w') →
  src item = flac_file
  ∧ ∃ d, w_fs w !! flac_file = Some (FlacFile (flac_obj item))
         ∧ flac_tags (flac_obj item) = Some (VCFLACDict d)
         ∧ _prepare_tags d = Ok (tags item).
Proof.
  unfold collect_one, bind.
  destruct (_parse_flac_tags flac_file w) as [[[fl t]|e] w1] eqn:Ep; [|done].
  apply parse_flac_tags_Ok in Ep as (d & Hf & Ht & Hp).
  unfold lift, ret. destruct (Pathlib.relative_to _ _); [|done].
  intros [= <- <-]. simpl. eauto.
Qed.

(** Every collected item comes from a file that the directory scan
    listed, and carries what the Tag Normalizer made of its tags; the
    collection leaves the world as it was. *)
Lemma collected_item path new_path w items w' item :
  _collect_transcode_items path new_path w = (Ok items, w') →
  item ∈ items →
  w' = w
  ∧ Pathlib.matches_star_flac (src item) = true
  ∧ ∃ d, w_fs w !! src item = Some (FlacFile (flac_obj item))
         ∧ flac_tags (flac_obj item) = Some (VCFLACDict d)
         ∧ _prepare_tags d = Ok (tags item).
Proof.
  unfold _collect_transcode_items, bind, Os.sorted_rglob_flac, gets.
  set (files := merge_sort _ _).
  destruct (map_M_read_only
              (collect_one (Pathlib.Path path) (Pathlib.Path new_path)) files w
              (collect_one_world _ _)) as [Hw Hr].
  destruct (map_M _ files w) as [r w1]; simpl in Hw, Hr; subst w1.
  intros [= -> <-] Hitem. split; [done|].
  specialize (Hr items eq_refl).
  apply list_elem_of_lookup in Hitem as [i Hi].
  destruct (Forall2_lookup_r _ _ _ _ _ Hr Hi) as (f & Hf & Hbody).
  apply collect_one_Ok in Hbody as (Hsrc & Hd). rewrite Hsrc. split; [|done].
  apply list_elem_of_lookup_2 in Hf. unfold files in Hf.
  rewrite merge_sort_Permutation in Hf.
  by apply list_elem_of_filter in Hf as [? _].
Qed.

End Collector.

(** ** The Lossless Validator *)

Section Validator.

Lemma check_all_accepts files w :
  (∀ f, f ∈ files → is_lossy_name f = false) → for_each files check_name w = (Ok tt, w).
Proof.
  induction files as [|f files IH]; intros Hall; [done|].
  simpl. unfold bind, check_name at 1. rewrite (Hall f) by left. simpl.
  apply IH. intros f' Hf'. apply Hall. by right.
Qed.

Lemma check_all_aborts files w f :
  f ∈ files → is_lossy_name f = true →
  ∃ w', for_each files check_name w = (Raise Abort, w')
        ∧ w_fs w' = w_fs w ∧ w_spawned w' = w_spawned w.
Proof.
  induction files as [|f' files IH]; intros Hin Hf; [by apply elem_of_nil in Hin|].
  simpl. unfold bind, check_name at 1.
  destruct (is_lossy_name f') eqn:Ef'.
  - unfold secho, modify, raise. simpl. eauto.
  - simpl. apply IH; [|done].
    apply elem_of_cons in Hin as [->|Hin]; [congruence|done].
Qed.

Lemma validate_lossless_accepts path w :
  (∀ f, f ∈ Os.files_below path (w_fs w) → is_lossy_name f = false) →
  _validate_lossless path w = (Ok tt, w).
Proof.
  intros Hall. unfold _validate_lossless, bind, Os.walk_files, gets.
  by apply check_all_accepts.
Qed.

Lemma validate_lossless_aborts path w f :
  f ∈ Os.files_below path (w_fs w) → is_lossy_name f = true →
  ∃ w', _validate_lossless path w = (Raise Abort, w')
        ∧ w_fs w' = w_fs w ∧ w_spawned w' = w_spawned w.
Proof.
  intros Hin Hf. unfold _validate_lossless, bind, Os.walk_files, gets.
  by apply (check_all_aborts _ _ f).
Qed.

End Validator.

(** ** The temporary file of [_flac_to_mp3] *)

Section TempFile.
Context `{Host}.

(** The [finally] block: it raises when the path holds a directory, and
    leaves nothing at the path otherwise. *)
Lemma remove_temp_spec tmp_path w :
  (w_fs w !! tmp_path = Some Dir
   ∧ remove_temp tmp_path w = (Raise (OSError tmp_path), w))
  ∨ (w_fs w !! tmp_path ≠ Some Dir
     ∧ ∃ w', remove_temp tmp_path w = (Ok tt, w') ∧ w_fs w' !! tmp_path = None
             ∧ w_spawned w' = w_spawned w ∧ w_console w' = w_console w).
Proof.
  unfold remove_temp, bind, Os.exists_, gets, Os.unlink, ret.
  destruct (w_fs w !! tmp_path) as [n|] eqn:E.
  - rewrite bool_decide_eq_true_2 by eauto. rewrite E.
    destruct n; [by left|right..]; (split; [done|]); eexists;
      (split; [done|]); simpl; by rewrite lookup_delete_eq.
  - rewrite bool_decide_eq_false_2 by (by intros [? ?]).
    right. split; [done|]. by exists w.
Qed.

(** A body run under the [finally] block. *)
Lemma try_finally_remove_temp {A} (body : M A) tmp_path w rb wb :
  body w = (rb, wb) →
  (w_fs wb !! tmp_path = Some Dir
   ∧ try_finally body (remove_temp tmp_path) w = (Raise (OSError tmp_path), wb))
  ∨ (w_fs wb !! tmp_path ≠ Some Dir
     ∧ ∃ w', try_finally body (remove_temp tmp_path) w = (rb, w')
             ∧ w_fs w' !! tmp_path = None
             ∧ w_spawned w' = w_spawned wb ∧ w_console w' = w_console wb).
Proof.
  intros Hb. unfold try_finally. rewrite Hb.
  destruct (remove_temp_spec tmp_path wb) as [[Hd Hr]|[Hd (w' & Hr & Hw')]];
    rewrite Hr; [by left|right]. split; [done|]. by exists w'.
Qed.

(** What is read from the captured bytes. *)
Lemma decoded_or_spec default captured :
  decoded_or default captured
  = if String.eqb captured "" then Ok default
    else if PyBytes.well_formed captured then Ok captured
    else Raise (UnicodeDecodeError captured).
Proof. done. Qed.

(** The three ways through the [try] block when both processes start. *)
Lemma decode_failure lame_qual flac_path mp3_path tmp_path w c fs2 :
  child (flac_cmd tmp_path flac_path) (w_fs w) = (Ok c, fs2) →
  returncode c ≠ 0 →
  ∃ w2, decode_then_encode lame_qual flac_path mp3_path tmp_path w
        = (if PyBytes.well_formed (stderr c)
           then Raise (RuntimeError ("FLAC decoding failed with code "
                                       ++ PyInt.str (returncode c)))
           else Raise (UnicodeDecodeError (stderr c)), w2)
        ∧ w_fs w2 = fs2
        ∧ w_spawned w2 = (w_spawned w ++ [flac_cmd tmp_path flac_path])%list
        ∧ w_console w2
          = (w_console w ++ if String.eqb (stderr c) "" || negb (PyBytes.well_formed (stderr c))
                            then [] else [stderr c])%list.
Proof.
  intros Hc Hcode. unfold decode_then_encode, bind, Os.run_process. rewrite Hc.
  apply Z.eqb_neq in Hcode. rewrite Hcode. simpl negb. cbv iota.
  unfold lift. rewrite decoded_or_spec.
  destruct (String.eqb (stderr c) "") eqn:Eempty.
  - apply String.eqb_eq in Eempty. rewrite Eempty. simpl.
    eexists. repeat split. simpl. by rewrite app_nil_r.
  - destruct (PyBytes.well_formed (stderr c)); simpl.
    + rewrite Eempty. simpl. eexists. repeat split.
    + eexists. repeat split. simpl. by rewrite app_nil_r.
Qed.

Lemma encode_failure lame_qual flac_path mp3_path tmp_path w c fs2 preset c' fs3 :
  child (flac_cmd tmp_path flac_path) (w_fs w) = (Ok c, fs2) →
  returncode c = 0 →
  LAME_COMMAND_MAP !! lame_qual = Some preset →
  child (lame_cmd preset tmp_path mp3_path) fs2 = (Ok c', fs3) →
  returncode c' ≠ 0 →
  ∃ w3, decode_then_encode lame_qual flac_path mp3_path tmp_path w
        = (if String.eqb (stderr c') "" then Raise (RuntimeError "LAME encoding failed")
           else if PyBytes.well_formed (stderr c') then Raise (RuntimeError (stderr c'))
           else Raise (UnicodeDecodeError (stderr c')), w3)
        ∧ w_fs w3 = fs3
        ∧ w_spawned w3 = (w_spawned w ++ [flac_cmd tmp_path flac_path;
                                          lame_cmd preset tmp_path mp3_path])%list
        ∧ w_console w3 = w_console w.
Proof.
  intros Hc Hcode Hp Hc' Hcode'.
  unfold decode_then_encode, bind, Os.run_process, lame_preset, lift.
  rewrite Hc, Hcode. simpl. rewrite Hp, Hc'.
  apply Z.eqb_neq in Hcode'. rewrite Hcode'. simpl. rewrite decoded_or_spec.
  destruct (String.eqb (stderr c') ""); [|destruct (PyBytes.well_formed (stderr c'))];
    simpl; eexists; repeat split; simpl; by rewrite <- app_assoc.
Qed.

Lemma decode_encode_success lame_qual flac_path mp3_path tmp_path w c fs2 preset c' fs3 :
  child (flac_cmd tmp_path flac_path) (w_fs w) = (Ok c, fs2) →
  returncode c = 0 →
  LAME_COMMAND_MAP !! lame_qual = Some preset →
  child (lame_cmd preset tmp_path mp3_path) fs2 = (Ok c', fs3) →
  returncode c' = 0 →
  ∃ w3, decode_then_encode lame_qual flac_path mp3_path tmp_path w = (Ok tt, w3)
        ∧ w_fs w3 = fs3
        ∧ w_spawned w3 = (w_spawned w ++ [flac_cmd tmp_path flac_path;
                                          lame_cmd preset tmp_path mp3_path])%list
        ∧ w_console w3 = w_console w.
Proof.
  intros Hc Hcode Hp Hc' Hcode'.
  unfold decode_then_encode, bind, Os.run_process, lame_preset, lift.
  rewrite Hc, Hcode. simpl. rewrite Hp, Hc', Hcode'. simpl.
  eexists. repeat split. simpl. by rewrite <- app_assoc.
Qed.

(** Making directories spawns and echoes nothing. *)
Lemma mkdir_p_quiet p w :
  w_spawned (Os.mkdir_p p w).2 = w_spawned w
  ∧ w_console (Os.mkdir_p p w).2 = w_console w.
Proof.
  unfold Os.mkdir_p. generalize (Os.prefixes "" (Pathlib.parts p)). intros l.
  revert w. induction l as [|d l IH]; intros w; [done|].
  cbn [for_each]. unfold bind.
  destruct (w_fs w !! d) as [[]|]; try done.
  destruct (IH (set_fs (insert d Dir) w)) as [Hs Hc]. by rewrite Hs, Hc.
Qed.

(** [_flac_to_mp3] after the directory of the destination is there. *)
Lemma flac_to_mp3_unfold lame_qual flac_path mp3_path w w0 :
  Os.mkdir_p (Pathlib.parent (Pathlib.Path mp3_path)) w = (Ok tt, w0) →
  _flac_to_mp3 lame_qual flac_path mp3_path w
  = try_finally
      (decode_then_encode lame_qual flac_path mp3_path (temp_name (w_fs w0)))
      (remove_temp (temp_name (w_fs w0)))
      (set_fs (insert (temp_name (w_fs w0)) (OtherFile "")) w0).
Proof.
  intros Hmk. unfold _flac_to_mp3, bind. rewrite Hmk.
  unfold Os.named_temporary_file. done.
Qed.

(** No temporary file is created when the directory cannot be made. *)
Lemma flac_to_mp3_mkdir_fails lame_qual flac_path mp3_path w e w0 :
  Os.mkdir_p (Pathlib.parent (Pathlib.Path mp3_path)) w = (Raise e, w0) →
  _flac_to_mp3 lame_qual flac_path mp3_path w = (Raise e, w0).
Proof. intros Hmk. unfold _flac_to_mp3, bind. by rewrite Hmk. Qed.

End TempFile.

(** ** Lower case and the splitting of names *)

Section LowerCase.

Lemma lower_char_idem c : PyStr.lower_char (PyStr.lower_char c) = PyStr.lower_char c.
Proof. by destruct c as [[] [] [] [] [] [] [] []]. Qed.

Lemma lower_char_dot c :
  Ascii.eqb (PyStr.lower_char c) "."%char = Ascii.eqb c "."%char.
Proof. by destruct c as [[] [] [] [] [] [] [] []]. Qed.

Lemma lower_char_sep c : OsPath.is_sep (PyStr.lower_char c) = OsPath.is_sep c.
Proof. by destruct c as [[] [] [] [] [] [] [] []]. Qed.

Lemma lower_idem s : PyStr.lower (PyStr.lower s) = PyStr.lower s.
Proof. induction s as [|c s IH]; simpl; [done|]. by rewrite lower_char_idem, IH. Qed.

Lemma all_dots_lower s : OsPath.all_dots (PyStr.lower s) = OsPath.all_dots s.
Proof. induction s as [|c s IH]; simpl; [done|]. by rewrite lower_char_dot, IH. Qed.

Lemma split_last_dot_lower s :
  OsPath.split_last_dot (PyStr.lower s)
  = (PyStr.lower (OsPath.split_last_dot s).1, PyStr.lower (OsPath.split_last_dot s).2).
Proof.
  induction s as [|c s IH]; simpl; [done|]. rewrite IH.
  destruct (OsPath.split_last_dot s) as [st e]. simpl.
  destruct e; simpl; [|done].
  rewrite lower_char_dot. by destruct (Ascii.eqb c ".").
Qed.

Lemma rsplit_lower p :
  OsPath.rsplit (PyStr.lower p)
  = (PyStr.lower (OsPath.rsplit p).1, PyStr.lower (OsPath.rsplit p).2).
Proof.
  induction p as [|c p IH]; simpl; [done|]. rewrite IH.
  destruct (OsPath.rsplit p) as [h t]. simpl.
  destruct h; simpl; [|done].
  rewrite lower_char_sep. by destruct (OsPath.is_sep c).
Qed.

Lemma basename_lower p : OsPath.basename (PyStr.lower p) = PyStr.lower (OsPath.basename p).
Proof. unfold OsPath.basename. by rewrite rsplit_lower. Qed.

Lemma splitext_ext_lower f :
  OsPath.splitext_ext (PyStr.lower f) = PyStr.lower (OsPath.splitext_ext f).
Proof.
  unfold OsPath.splitext_ext, OsPath.splitext_name.
  rewrite basename_lower, split_last_dot_lower.
  destruct (OsPath.split_last_dot (OsPath.basename f)) as [st e]. simpl.
  rewrite all_dots_lower. by destruct (OsPath.all_dots st).
Qed.

Lemma suffix_lower p : Pathlib.suffix (PyStr.lower p) = PyStr.lower (Pathlib.suffix p).
Proof.
  unfold Pathlib.suffix, Pathlib.name.
  rewrite basename_lower, split_last_dot_lower.
  destruct (OsPath.split_last_dot (OsPath.basename p)) as [st e]. simpl.
  destruct st; simpl; [done|]. destruct e as [|c [|c' e]]; done.
Qed.

(** The validator and the copier do not tell the case of a name. *)
Lemma is_lossy_name_lower f : is_lossy_name (PyStr.lower f) = is_lossy_name f.
Proof. unfold is_lossy_name. by rewrite splitext_ext_lower, lower_idem. Qed.

Lemma is_sidecar_lower p : is_sidecar (PyStr.lower p) = is_sidecar p.
Proof. unfold is_sidecar. by rewrite suffix_lower, lower_idem. Qed.

End LowerCase.

(** ** The Tag Writer *)

Section TagWriter.
Context `{Host}.

(** The frames of a list without two frames of one hash key, added to a
    tag in which their keys are free: each is filed under its key, and
    the other keys are as they were. *)
Lemma foldl_add_fresh (l : list Frame) (frames : gmap string Frame) :
  NoDup (Mutagen.HashKey <$> l) →
  (∀ f, f ∈ l → frames !! Mutagen.HashKey f = None) →
  (∀ f, f ∈ l → foldl Mutagen.add frames l !! Mutagen.HashKey f = Some f)
  ∧ (∀ key, (∀ f, f ∈ l → Mutagen.HashKey f ≠ key) →
            foldl Mutagen.add frames l !! key = frames !! key).
Proof.
  revert frames. induction l as [|f l IH]; intros frames Hnd Hfree.
  { split; [by intros f Hf%elem_of_nil|done]. }
  rewrite fmap_cons in Hnd. apply NoDup_cons in Hnd as [Hf Hnd].
  assert (Mutagen.add frames f = <[Mutagen.HashKey f := f]> frames) as Hadd.
  { unfold Mutagen.add. rewrite Hfree; [done|by left]. }
  cbn [foldl]. rewrite Hadd.
  assert (∀ g, g ∈ l → Mutagen.HashKey g ≠ Mutagen.HashKey f) as Hother.
  { intros g Hg Heq. apply Hf. rewrite <- Heq. by apply list_elem_of_fmap_2. }
  destruct (IH (<[Mutagen.HashKey f := f]> frames) Hnd) as [Hin Hout].
  { intros g Hg. rewrite lookup_insert_ne by (symmetry; by apply Hother).
    apply Hfree. by right. }
  split.
  - intros g [->|Hg]%elem_of_cons; [|by apply Hin].
    rewrite Hout by done. by rewrite lookup_insert_eq.
  - intros key Hkey. rewrite Hout by (intros g Hg; apply Hkey; by right).
    rewrite lookup_insert_ne; [done|]. apply Hkey. by left.
Qed.

(** The frame of every tag, and of every picture, is among the frames
    to add. *)
Lemma frames_to_add_tag tag_dict flac_obj k v :
  tag_dict !! k = Some v → _get_id3_frame k v ∈ frames_to_add tag_dict flac_obj.
Proof.
  intros Hk. unfold frames_to_add. apply elem_of_app. left.
  apply list_elem_of_fmap. exists (k, v). split; [done|].
  by apply elem_of_map_to_list.
Qed.

Lemma frames_to_add_picture tag_dict flac_obj pic :
  pic ∈ flac_pictures flac_obj → apic_of pic ∈ frames_to_add tag_dict flac_obj.
Proof.
  intros Hp. unfold frames_to_add. apply elem_of_app. right.
  by apply list_elem_of_fmap_2.
Qed.

Lemma frames_to_add_inv tag_dict flac_obj f :
  f ∈ frames_to_add tag_dict flac_obj →
  (∃ k v, tag_dict !! k = Some v ∧ f = _get_id3_frame k v)
  ∨ (∃ pic, pic ∈ flac_pictures flac_obj ∧ f = apic_of pic).
Proof.
  unfold frames_to_add. intros [Hf|Hf]%elem_of_app.
  - left. apply list_elem_of_fmap in Hf as ([k v] & -> & Hkv).
    apply elem_of_map_to_list in Hkv. eauto.
  - right. apply list_elem_of_fmap in Hf as (pic & -> & Hp). eauto.
Qed.

(** [_copy_tags] on an MP3 file whose tag can be filled: the file that it
    saves. *)
Lemma copy_tags_run tag_dict flac_obj mp3_path w m :
  w_fs w !! mp3_path = Some (Mp3File m) →
  mp3_tags m ≠ Some ∅ →
  _copy_tags tag_dict flac_obj mp3_path w
  = (Ok tt,
     {| w_fs := <[mp3_path :=
                   Mp3File {| mp3_tags := Some (foldl Mutagen.add (default ∅ (mp3_tags m))
                                                  (frames_to_add tag_dict flac_obj));
                              mp3_v2_version := 4;
                              mp3_has_v1 := false |}]> (w_fs w);
        w_spawned := w_spawned w;
        w_console := (w_console w ++ [("     Copy tags: " ++ mp3_path)%string])%list |}).
Proof.
  intros Hopen Hfill.
  unfold _copy_tags, bind, Mutagen.MP3_open, secho, lift, ret, raise,
    no_tags, Mutagen.add_tags, Mutagen.save, modify.
  rewrite Hopen. simpl.
  destruct (mp3_tags m) as [t|] eqn:Em; simpl.
  - rewrite bool_decide_eq_false_2 by congruence. simpl. by rewrite Em.
  - done.
Qed.

(** [_copy_tags] raises in every other case, and leaves the file system
    as it was. *)
Lemma copy_tags_raises tag_dict flac_obj mp3_path w :
  (∀ m, w_fs w !! mp3_path = Some (Mp3File m) → mp3_tags m = Some ∅) →
  ∃ msg w', _copy_tags tag_dict flac_obj mp3_path w = (Raise (MutagenError msg), w')
            ∧ w_fs w' = w_fs w.
Proof.
  intros Hbad.
  unfold _copy_tags, bind, Mutagen.MP3_open, secho, lift, ret, raise,
    no_tags, Mutagen.add_tags, Mutagen.save, modify.
  destruct (w_fs w !! mp3_path) as [[|f|m|data]|] eqn:E; simpl; eauto.
  rewrite (Hbad m eq_refl). simpl. rewrite bool_decide_eq_true_2 by done. simpl. eauto.
Qed.

(** The two cases of the destination of [_copy_tags]. *)
Lemma tag_can_be_filled_or_not (fs : filesystem) mp3_path :
  (∃ m, fs !! mp3_path = Some (Mp3File m) ∧ mp3_tags m ≠ Some ∅)
  ∨ (∀ m, fs !! mp3_path = Some (Mp3File m) → mp3_tags m = Some ∅).
Proof.
  destruct (fs !! mp3_path) as [[|f|m|data]|]; try (by right).
  destruct (mp3_tags m) as [t|] eqn:Et; [|left; exists m; by rewrite Et].
  destruct (decide (t = ∅)) as [->|Hne].
  - right. by intros ? [= <-].
  - left. exists m. rewrite Et. split; [done|congruence].
Qed.

End TagWriter.

(** * The claims *)

(** ** The Path Namer *)

(** C1. The claim expects ["Artist - Album [MP3 V0]"] for the folder
    ["Artist - Album [FLAC]"] and the label ["V0"].  The pattern
    [\[FLAC.*\]] matches the bracket token with its brackets, so the
    substitution removes them: the code returns ["Artist - Album MP3 V0"]
    in the same parent directory. *)
Theorem C1_flac_bracket_is_replaced_with_its_brackets :
  _build_output_path "/music/Artist - Album [FLAC]" "V0" = "/music/Artist - Album MP3 V0"
  ∧ OsPath.dirname (_build_output_path "/music/Artist - Album [FLAC]" "V0") = "/music"
  ∧ OsPath.basename (_build_output_path "/music/Artist - Album [FLAC]" "V0")
    ≠ "Artist - Album [MP3 V0]".
Proof. repeat split; [by vm_compute..|]. vm_compute. discriminate. Qed.

(** C2. The claim expects ["Artist - Album [MP3 320]"] for the folder
    ["Artist - Album [FLAC Lossless]"] and the label ["320"].  The greedy
    [.*] of the bracket pattern takes the word [Lossless] with it, so the
    second substitution finds nothing to replace: the code returns
    ["Artist - Album MP3"] for every label. *)
Theorem C2_flac_lossless_bracket_loses_the_label :
  _build_output_path "/music/Artist - Album [FLAC Lossless]" "320"
  = "/music/Artist - Album MP3"
  ∧ _build_output_path "/music/Artist - Album [FLAC Lossless]" "V0"
    = "/music/Artist - Album MP3"
  ∧ OsPath.basename (_build_output_path "/music/Artist - Album [FLAC Lossless]" "320")
    ≠ "Artist - Album [MP3 320]".
Proof. repeat split; [by vm_compute..|]. vm_compute. discriminate. Qed.

(** The two other cases of the Path Namer, as the specification lists
    them. *)
Example build_output_path_appends :
  _build_output_path "/music/Artist - Album (Lossless)" "V0"
  = "/music/Artist - Album (V0) [MP3]"
  ∧ _build_output_path "/music/Artist - Album" "320" = "/music/Artist - Album [MP3 320]".
Proof. split; by vm_compute. Qed.

(** ** The Tag Normalizer *)

(** C3 (as stated), refuted: a mapping with a total-synonym key and no
    primary key is accepted by the Tag Normalizer and keeps the key, and
    the item that the collector constructs for a file with these tags
    carries it. *)
Lemma C3_total_without_primary_is_kept :
  let lone := Sample.track 2 [("tracktotal", ["12"])] in
  let w := Sample.world_of [("/cd", Dir); ("/cd/01.flac", FlacFile lone)] in
  _prepare_tags {[ "tracktotal" := ["12"] ]} = Ok {[ "tracktotal" := ["12"] ]}
  ∧ _collect_transcode_items "/cd" "/cd [MP3 V0]" w
    = (Ok [ {| src := "/cd/01.flac"; dst := "/cd [MP3 V0]/01.mp3"; flac_obj := lone;
               tags := {[ "tracktotal" := ["12"] ]} |} ], w).
Proof. split; vm_compute; reflexivity. Qed.

(** C3 (amended).  The tags of every item that the collector constructs
    are what the Tag Normalizer returns for the Vorbis comment of the
    item's file.  They hold no total-synonym key of a primary key that
    they hold: those were merged into the primary key, or the
    construction failed.  The total-synonym keys of a primary key that is
    absent from the input are kept as the input has them. *)
Theorem C3_item_tags_hold_no_total_of_a_present_primary
    path new_path w items w' item :
  _collect_transcode_items path new_path w = (Ok items, w') →
  item ∈ items →
  ∃ raw,
    w_fs w !! src item = Some (FlacFile (flac_obj item))
    ∧ flac_tags (flac_obj item) = Some (VCFLACDict raw)
    ∧ _prepare_tags raw = Ok (tags item)
    ∧ ∀ tag tots, (tag, tots) ∈ _TOT_MAP →
        (is_Some (tags item !! tag) → ∀ k, k ∈ tots → tags item !! k = None)
        ∧ (raw !! tag = None → ∀ k, k ∈ tots → tags item !! k = raw !! k).
Proof.
  intros Hc Hitem.
  destruct (collected_item _ _ _ _ _ _ Hc Hitem) as (_ & _ & raw & Hf & Ht & Hp).
  exists raw. split; [done|]. split; [done|]. split; [done|].
  intros tag tots Hin.
  destruct (prepare_tags_group raw (tags item) tag tots Hp Hin) as (Hgone & Hkept & Hsame).
  split; [|done].
  intros Hs. by apply Hgone, Hsame.
Qed.

(** The first track of the sample album, through the theorem. *)
Lemma C3_item_tags_witness :
  ∃ raw,
    flac_tags (flac_obj Sample.first_item) = Some (VCFLACDict raw)
    ∧ _prepare_tags raw = Ok (tags Sample.first_item)
    ∧ tags Sample.first_item !! "tracktotal" = None.
Proof.
  assert (_collect_transcode_items "/cd" "/cd [MP3 V0]" Sample.album
          = (Ok [Sample.first_item], Sample.album)) as Hrun
    by (vm_compute; reflexivity).
  destruct (C3_item_tags_hold_no_total_of_a_present_primary
              "/cd" "/cd [MP3 V0]" Sample.album [Sample.first_item] Sample.album
              Sample.first_item Hrun)
    as (raw & _ & Ht & Hp & Hinv); [by left|].
  exists raw. split; [exact Ht|]. split; [exact Hp|].
  apply (Hinv "tracknumber" ["tracktotal"; "totaltracks"; "total tracks"]).
  - compute_done.
  - exists ["1/2"]. by vm_compute.
  - compute_done.
Defined.

(** C4 (as stated), refuted.  The primary key does not keep its further
    values when its first value is replaced: the merge gives it the one
    value ["<number>/<t>"].  And a mapping whose track group agrees is
    not returned when the merge of the disc group raises. *)
Lemma C4_further_values_are_dropped :
  _prepare_tags (list_to_map [("tracknumber", ["3"; "4"]); ("tracktotal", ["12"])])
  = Ok {[ "tracknumber" := ["3/12"] ]}
  ∧ _prepare_tags (list_to_map [("tracknumber", ["3"]); ("tracktotal", ["12"]);
                                ("discnumber", ["1"]); ("disctotal", ["two"])])
    = Raise (IntValueError "two").
Proof. split; by vm_compute. Qed.

(** C4 (amended).  When a primary key has a first value and some of its
    total-synonym keys are present, and the merge of the other group does
    not raise: if the first values of the present synonyms all read as
    the integer [t], the Tag Normalizer returns a mapping that gives the
    primary key the single value ["<number>/<t>"], made of its first
    value, and holds none of the synonym keys; if they all read as
    integers and two of them differ, it raises the conflict error, whose
    message names every present synonym key, the keys joined in some
    order.  The function is pure: the mapping it is given is a value,
    which it cannot change. *)
Theorem C4_prepare_tags_merges_or_reports_conflict
    (raw : tagdict) tag tots nr rest :
  (tag, tots) ∈ _TOT_MAP →
  raw !! tag = Some (nr :: rest) →
  used_keys tots raw ≠ [] →
  (∀ entry, entry ∈ _TOT_MAP → entry ≠ (tag, tots) →
     ∃ r', merge_totals (drop_unwanted raw) entry = Ok r') →
  (∀ t, (∀ k, k ∈ used_keys tots raw → first_total raw k = Some t) →
     ∃ r, _prepare_tags raw = Ok r
          ∧ r !! tag = Some [nr ++ "/" ++ PyInt.str t]
          ∧ ∀ k, k ∈ tots → r !! k = None)
  ∧ (∀ k1 k2,
       (∀ k, k ∈ used_keys tots raw → is_Some (first_total raw k)) →
       k1 ∈ used_keys tots raw → k2 ∈ used_keys tots raw →
       first_total raw k1 ≠ first_total raw k2 →
       ∃ l, l ≡ₚ used_keys tots raw
            ∧ _prepare_tags raw
              = Raise (ValueError ("conflicting values of " ++ PyStr.join " and " l))
            ∧ ∀ k, k ∈ used_keys tots raw
                   → PyStr.contains k ("conflicting values of " ++ PyStr.join " and " l)
                     = true).
Proof.
  intros Hin Hnr Hused Hother. split.
  - intros t Hall. by eapply prepare_tags_agree.
  - intros k1 k2 Hall H1 H2 Hne. exists (used_keys tots raw). split; [done|]. split.
    + apply (prepare_tags_conflict raw tag tots k1 k2); [done|by rewrite Hnr|done..].
    + intros k Hk. by apply contains_app_r, contains_join.
Qed.

(** The two mappings of the specification, through the theorem. *)
Lemma C4_prepare_tags_witness :
  (∃ r, _prepare_tags (list_to_map [("tracknumber", ["3"]); ("tracktotal", ["12"])]) = Ok r
        ∧ r !! "tracknumber" = Some ["3/12"]
        ∧ ∀ k, k ∈ ["tracktotal"; "totaltracks"; "total tracks"] → r !! k = None)
  ∧ ∃ l, l ≡ₚ ["tracktotal"; "totaltracks"]
         ∧ _prepare_tags (list_to_map [("tracknumber", ["3"]); ("tracktotal", ["12"]);
                                       ("totaltracks", ["11"])])
           = Raise (ValueError ("conflicting values of " ++ PyStr.join " and " l)).
Proof.
  assert (∀ raw : tagdict,
            raw !! "discnumber" = None →
            ∀ entry, entry ∈ _TOT_MAP →
              entry ≠ ("tracknumber", ["tracktotal"; "totaltracks"; "total tracks"]) →
              ∃ r', merge_totals (drop_unwanted raw) entry = Ok r') as Hquiet.
  { intros raw Hd [tag' tots'] He Hne. tot_cases He; [done|].
    eexists. apply merge_totals_skip. by rewrite lookup_drop_unwanted. }
  split.
  - destruct (C4_prepare_tags_merges_or_reports_conflict
                (list_to_map [("tracknumber", ["3"]); ("tracktotal", ["12"])])
                "tracknumber" ["tracktotal"; "totaltracks"; "total tracks"] "3" [])
      as [Hagree _].
    + compute_done.
    + by vm_compute.
    + by vm_compute.
    + by apply Hquiet.
    + apply (Hagree 12). intros k Hk. vm_compute in Hk. key_cases Hk. by vm_compute.
  - destruct (C4_prepare_tags_merges_or_reports_conflict
                (list_to_map [("tracknumber", ["3"]); ("tracktotal", ["12"]);
                              ("totaltracks", ["11"])])
                "tracknumber" ["tracktotal"; "totaltracks"; "total tracks"] "3" [])
      as [_ Hconflict].
    + compute_done.
    + by vm_compute.
    + by vm_compute.
    + by apply Hquiet.
    + destruct (Hconflict "tracktotal" "totaltracks") as (l & Hl & Hrun & _).
      * intros k Hk. vm_compute in Hk. key_cases Hk; compute_done.
      * compute_done.
      * compute_done.
      * compute_done.
      * exists l. split; [exact Hl|exact Hrun].
Defined.

(** The mappings of the specification, evaluated. *)
Example prepare_tags_examples :
  _prepare_tags (list_to_map [("tracknumber", ["3"]); ("tracktotal", ["12"])])
  = Ok {[ "tracknumber" := ["3/12"] ]}
  ∧ _prepare_tags (list_to_map [("replaygain_track_gain", ["-3 dB"]); ("encoder", ["x"]);
                                ("title", ["t"])])
    = Ok {[ "title" := ["t"] ]}
  ∧ _prepare_tags (list_to_map [("tracknumber", ["3"; "4"]); ("tracktotal", ["012"]);
                                ("total tracks", [" 12 "])])
    = Ok {[ "tracknumber" := ["3/12"] ]}.
Proof. repeat split; by vm_compute. Qed.

(** ** The top-level operation *)

(** C5 (as stated), refuted: the destination directory exists, and the
    operation raises [Abort], because the Lossless Validator runs first
    and the source holds a lossy file. *)
Lemma C5_existing_destination_with_lossy_source_aborts :
  let w := Sample.world_of
             [ ("/cd", Dir); ("/cd/01.flac", FlacFile Sample.one);
               ("/cd/bonus.mp3", OtherFile "ID3"); ("/cd [MP3 V0]", Dir) ] in
  _build_output_path "/cd" "V0" = "/cd [MP3 V0]"
  ∧ w_fs w !! "/cd [MP3 V0]" = Some Dir
  ∧ (@transcode_folder Sample.host "/cd" "V0" w).1 = Raise Abort.
Proof. repeat split; by vm_compute. Qed.

(** C5 (amended).  When the Lossless Validator finds no lossy file below
    the source and the destination directory that the Path Namer computes
    exists, the operation returns that path without an error; it echoes
    one line, leaves the file system as it was and spawns no process.
    Run again on the world it leaves, it does the same. *)
Theorem C5_existing_destination_is_returned_unchanged `{Host} path bitrate w :
  (∀ f, f ∈ Os.files_below path (w_fs w) → is_lossy_name f = false) →
  w_fs w !! Pathlib.Path (_build_output_path path bitrate) = Some Dir →
  let new_path := _build_output_path path bitrate in
  ∃ w1 w2,
    transcode_folder path bitrate w = (Ok new_path, w1)
    ∧ w_fs w1 = w_fs w
    ∧ w_spawned w1 = w_spawned w
    ∧ w_console w1 = (w_console w ++ [(new_path ++ " already exists.")%string])%list
    ∧ transcode_folder path bitrate w1 = (Ok new_path, w2)
    ∧ w_fs w2 = w_fs w
    ∧ w_spawned w2 = w_spawned w.
Proof.
  intros Hvalid Hdir new_path.
  assert (∀ w0, w_fs w0 = w_fs w →
            transcode_folder path bitrate w0
            = (Ok new_path,
               {| w_fs := w_fs w0; w_spawned := w_spawned w0;
                  w_console := w_console w0 ++ [new_path ++ " already exists."] |}))
    as Hrun.
  { intros w0 Hfs. unfold transcode_folder, bind.
    rewrite validate_lossless_accepts by (by rewrite Hfs).
    unfold Os.isdir, gets. rewrite <- Hfs in Hdir. rewrite Hdir. reflexivity. }
  eexists _, _. split; [by apply Hrun|].
  split; [done|]. split; [done|]. split; [done|].
  split; [by apply Hrun|]. done.
Qed.

(** A source without lossy files whose destination is there, through the
    theorem. *)
Lemma C5_existing_destination_witness :
  let w := Sample.world_of
             [ ("/cd", Dir); ("/cd/01.flac", FlacFile Sample.one); ("/cd [MP3 V0]", Dir) ] in
  ∃ w1, @transcode_folder Sample.host "/cd" "V0" w = (Ok "/cd [MP3 V0]", w1)
        ∧ w_fs w1 = w_fs w
        ∧ w_spawned w1 = [].
Proof.
  intros w.
  destruct (@C5_existing_destination_is_returned_unchanged Sample.host "/cd" "V0" w)
    as (w1 & w2 & Hrun & Hfs & Hsp & _).
  - intros f Hf. vm_compute in Hf. key_cases Hf. by vm_compute.
  - by vm_compute.
  - exists w1. split; [exact Hrun|]. split; [exact Hfs|exact Hsp].
Defined.

(** ** The Transcode Engine *)

(** C6.  For an item with more than two channels, [_transcode_one] raises
    the channel-count error, whose message names the source file and the
    channel count, and leaves the world as it found it: no process was
    spawned and no file was created.  For an item with at most two
    channels it is the encoding followed by the copy of the tags. *)
Theorem C6_channel_check_precedes_the_processes `{Host}
    items bitrate file idx item w :
  items !! idx = Some item →
  (2 < info_channels (flac_obj item) →
     _transcode_one items bitrate file idx w = (Raise (ValueError (channel_message item)), w)
     ∧ PyStr.contains (src item) (channel_message item) = true
     ∧ PyStr.contains (PyInt.str (info_channels (flac_obj item))) (channel_message item)
       = true)
  ∧ (info_channels (flac_obj item) ≤ 2 →
       _transcode_one items bitrate file idx w
       = (secho ("Encoding: " ++ dst item) ;;;
          _flac_to_mp3 bitrate (src item) (dst item) ;;;
          _copy_tags (tags item) (flac_obj item) (Pathlib.Path (dst item)))%M w).
Proof.
  intros Hitem. unfold _transcode_one, item_at, bind, lift. rewrite Hitem. split.
  - intros Hch. apply Z.ltb_lt in Hch. rewrite Hch. split; [done|].
    unfold channel_message. split.
    + apply contains_here, prefix_app.
    + apply contains_app_r, contains_app_r, contains_here, prefix_app.
  - intros Hch. apply Z.ltb_ge in Hch. by rewrite Hch.
Qed.

(** An item with six channels, through the theorem. *)
Lemma C6_channel_check_witness :
  let item := {| src := "/cd/01.flac"; dst := "/cd [MP3 V0]/01.mp3";
                 flac_obj := Sample.track 6 []; tags := ∅ |} in
  @_transcode_one Sample.host [item] "V0" "/cd/01.flac" 0 Sample.album
  = (Raise (ValueError "/cd/01.flac has 6 channels. Cannot convert to MP3."),
     Sample.album).
Proof.
  intros item.
  destruct (@C6_channel_check_precedes_the_processes Sample.host
              [item] "V0" "/cd/01.flac" 0%nat item Sample.album eq_refl)
    as [Hmany _].
  destruct Hmany as [Hrun _]; [by vm_compute|]. exact Hrun.
Defined.

(** C7 (as stated), refuted: the decoder exits with status 1 and the
    diagnostic ["ERROR: cannot open input"].  The error that
    [_flac_to_mp3] raises carries the exit status and not the diagnostic,
    which is echoed to the console. *)
Lemma C7_decoder_diagnostic_is_not_in_the_error :
  let run := @_flac_to_mp3 Sample.host "V0" "/cd/none.flac" "/cd/01.mp3" Sample.album in
  let fs1 := <["/tmp/t.wav" := OtherFile ""]> (w_fs Sample.album) in
  Sample.decoder_encoder (flac_cmd "/tmp/t.wav" "/cd/none.flac") fs1
  = (Ok (Sample.done 1 "ERROR: cannot open input"), fs1)
  ∧ run.1 = Raise (RuntimeError "FLAC decoding failed with code 1")
  ∧ PyStr.contains "ERROR: cannot open input" "FLAC decoding failed with code 1" = false
  ∧ w_console run.2 = ["ERROR: cannot open input"]
  ∧ w_fs run.2 !! "/tmp/t.wav" = None.
Proof. repeat split; by vm_compute. Qed.

(** C7 (amended).  Once the directory of the destination is there,
    [_flac_to_mp3] creates the temporary file and leaves nothing at its
    path when it returns or raises, on every way out; the one exception
    is a child process that put a directory at that path, in which case
    the removal raises.  When the decoder exits non-zero and the bytes it
    wrote to its standard error are well-formed UTF-8, the error carries
    the exit status of the decoder, and the diagnostic is echoed to the
    console, not carried; when the encoder exits non-zero and its bytes
    are well-formed, the error carries the diagnostic of the encoder, or
    a fixed message when there is none, and nothing is echoed.  Bytes
    that are not well-formed make the strict decoding raise in the place
    of either error.  When both exit with zero the call returns. *)
Theorem C7_temporary_file_is_removed_on_every_exit `{Host}
    lame_qual flac_path mp3_path w w0 :
  Os.mkdir_p (Pathlib.parent (Pathlib.Path mp3_path)) w = (Ok tt, w0) →
  let tmp_path := temp_name (w_fs w0) in
  let fs1 := <[tmp_path := OtherFile ""]> (w_fs w0) in
  let r := (_flac_to_mp3 lame_qual flac_path mp3_path w).1 in
  let w' := (_flac_to_mp3 lame_qual flac_path mp3_path w).2 in
  (w_fs w' !! tmp_path = None
   ∨ (w_fs w' !! tmp_path = Some Dir ∧ r = Raise (OSError tmp_path)))
  ∧ (∀ c fs2,
       child (flac_cmd tmp_path flac_path) fs1 = (Ok c, fs2) →
       returncode c ≠ 0 →
       fs2 !! tmp_path ≠ Some Dir →
       w_fs w' !! tmp_path = None
       ∧ (PyBytes.well_formed (stderr c) = true →
            r = Raise (RuntimeError ("FLAC decoding failed with code "
                                       ++ PyInt.str (returncode c)))
            ∧ w_console w'
              = (w_console w ++ if String.eqb (stderr c) "" then [] else [stderr c])%list)
       ∧ (PyBytes.well_formed (stderr c) = false →
            r = Raise (UnicodeDecodeError (stderr c))
            ∧ w_console w' = w_console w))
  ∧ (∀ c fs2 preset c' fs3,
       child (flac_cmd tmp_path flac_path) fs1 = (Ok c, fs2) →
       returncode c = 0 →
       LAME_COMMAND_MAP !! lame_qual = Some preset →
       child (lame_cmd preset tmp_path mp3_path) fs2 = (Ok c', fs3) →
       fs3 !! tmp_path ≠ Some Dir →
       (returncode c' ≠ 0 →
          PyBytes.well_formed (stderr c') = true →
          r = Raise (RuntimeError (if String.eqb (stderr c') ""
                                   then "LAME encoding failed" else stderr c')))
       ∧ (returncode c' ≠ 0 →
            PyBytes.well_formed (stderr c') = false →
            r = Raise (UnicodeDecodeError (stderr c')))
       ∧ (returncode c' = 0 → r = Ok tt)
       ∧ w_console w' = w_console w
       ∧ w_fs w' !! tmp_path = None).
Proof.
  intros Hmk tmp_path fs1 r w'. subst r w'.
  rewrite (flac_to_mp3_unfold _ _ _ _ _ Hmk). fold tmp_path.
  set (w1 := set_fs (insert tmp_path (OtherFile "")) w0).
  assert (w_fs w1 = fs1) as Hfs1 by done.
  assert (w_console w1 = w_console w) as Hcon.
  { pose proof (mkdir_p_quiet (Pathlib.parent (Pathlib.Path mp3_path)) w) as [_ Hq].
    rewrite Hmk in Hq. exact Hq. }
  split; [|split].
  - destruct (decode_then_encode lame_qual flac_path mp3_path tmp_path w1)
      as [rb wb] eqn:Eb.
    destruct (try_finally_remove_temp _ tmp_path _ _ _ Eb)
      as [[Hd ->]|[Hd (w' & -> & Hw' & _)]]; simpl; [right|left]; done.
  - intros c fs2 Hc Hcode Hnodir. rewrite <- Hfs1 in Hc.
    destruct (decode_failure lame_qual flac_path mp3_path tmp_path w1 c fs2 Hc Hcode)
      as (w2 & Eb & Hfs2 & _ & Hcon2).
    destruct (try_finally_remove_temp _ tmp_path _ _ _ Eb)
      as [[Hd _]|[_ (w' & -> & Hw' & _ & Hcon')]]; [congruence|].
    simpl. split; [done|]. rewrite Hcon', Hcon2, Hcon.
    split; intros ->; simpl; [by rewrite orb_false_r|by rewrite orb_true_r, app_nil_r].
  - intros c fs2 preset c' fs3 Hc Hcode Hp Hc' Hnodir. rewrite <- Hfs1 in Hc.
    destruct (decide (returncode c' = 0)) as [Hz|Hnz].
    + destruct (decode_encode_success lame_qual flac_path mp3_path tmp_path w1
                  c fs2 preset c' fs3 Hc Hcode Hp Hc' Hz) as (w3 & Eb & Hfs3 & _ & Hcon3).
      destruct (try_finally_remove_temp _ tmp_path _ _ _ Eb)
        as [[Hd _]|[_ (w' & -> & Hw' & _ & Hcon')]]; [congruence|].
      simpl. rewrite Hcon', Hcon3, Hcon. done.
    + destruct (encode_failure lame_qual flac_path mp3_path tmp_path w1
                  c fs2 preset c' fs3 Hc Hcode Hp Hc' Hnz) as (w3 & Eb & Hfs3 & _ & Hcon3).
      destruct (try_finally_remove_temp _ tmp_path _ _ _ Eb)
        as [[Hd _]|[_ (w' & -> & Hw' & _ & Hcon')]]; [congruence|].
      simpl. rewrite Hcon', Hcon3, Hcon.
      split; [|split; [|done]].
      * intros _ ->. by destruct (String.eqb (stderr c') "").
      * intros _ Hbad. rewrite Hbad.
        destruct (String.eqb (stderr c') "") eqn:Ee; [|done].
        apply String.eqb_eq in Ee. by rewrite Ee in Hbad.
Qed.

(** The first track of the sample album, decoded and encoded by the
    sample host, through the theorem. *)
Lemma C7_temporary_file_witness :
  let run := @_flac_to_mp3 Sample.host "V0" "/cd/01.flac" "/cd/01.mp3" Sample.album in
  w_fs run.2 !! "/tmp/t.wav" = None ∧ run.1 = Ok tt.
Proof.
  intros run.
  pose (fs1 := <["/tmp/t.wav" := OtherFile ""]> (w_fs Sample.album)).
  pose (fs2 := <["/tmp/t.wav" := OtherFile "RIFF"]> fs1).
  pose (fs3 := <["/cd/01.mp3" := Mp3File Sample.fresh_mp3]> fs2).
  assert (Os.mkdir_p (Pathlib.parent (Pathlib.Path "/cd/01.mp3")) Sample.album
          = (Ok tt, Sample.album)) as Hmk by (vm_compute; reflexivity).
  destruct (@C7_temporary_file_is_removed_on_every_exit Sample.host
              "V0" "/cd/01.flac" "/cd/01.mp3" Sample.album Sample.album Hmk)
    as (_ & _ & Hboth).
  destruct (Hboth (Sample.done 0 "") fs2 ["-V"; "0"; "--vbr-new"] (Sample.done 0 "") fs3)
    as (_ & _ & Hok & _ & Hgone).
  - vm_compute. reflexivity.
  - reflexivity.
  - reflexivity.
  - vm_compute. reflexivity.
  - vm_compute. discriminate.
  - split; [exact Hgone|by apply Hok].
Defined.

(** ** The Tag Writer *)

(** C8 (as stated), refuted.  The tags [albumartist] and [album artist]
    both make a frame of the hash key [TPE2], and the tag files one frame
    under a hash key: the tag that [_copy_tags] saves for the two tags
    holds one frame.  And a destination whose tag is there but empty is
    not written: [_copy_tags] raises. *)
Lemma C8_alias_keys_share_one_frame :
  let tag_dict : tagdict := list_to_map [("albumartist", ["A"]); ("album artist", ["B"])] in
  let plain := {| info_channels := 2; flac_tags := None; flac_pictures := [] |} in
  let w := Sample.world_of [("/a.mp3", Mp3File Sample.fresh_mp3)] in
  let empty :=
    Sample.world_of [("/a.mp3", Mp3File (Mutagen.with_tags Sample.fresh_mp3 (Some ∅)))] in
  Mutagen.HashKey (_get_id3_frame "albumartist" ["A"]) = "TPE2"
  ∧ Mutagen.HashKey (_get_id3_frame "album artist" ["B"]) = "TPE2"
  ∧ (@_copy_tags Sample.host tag_dict plain "/a.mp3" w).1 = Ok tt
  ∧ size <$> tag_at (w_fs (@_copy_tags Sample.host tag_dict plain "/a.mp3" w).2) "/a.mp3"
    = Some 1%nat
  ∧ (@_copy_tags Sample.host tag_dict plain "/a.mp3" empty).1
    = Raise (MutagenError "an ID3 tag already exists").
Proof. repeat split; by vm_compute. Qed.

(** C8 (amended).  When the destination opens as an MP3 file that has no
    tag or a tag with a frame in it, no two of the frames to add have one
    hash key, and none has the hash key of a frame of the file,
    [_copy_tags] returns and saves the file with version 4 of the tag and
    without an ID3v1 tag.  The saved tag holds, under its hash key, for
    every key of the mapping the text frame of the mapped identifier when
    the key is in [VORBIS_TO_ID3_MAP] and the [TXXX] frame described by
    the key otherwise, each with the value sequence of the key, and, for
    every picture of the source, an [APIC] frame with its mime type, type
    code, description and data; it keeps the frames that the file had,
    and holds nothing else. *)
Theorem C8_copy_tags_writes_every_tag_and_picture `{Host}
    tag_dict flac_obj mp3_path w m :
  w_fs w !! mp3_path = Some (Mp3File m) →
  mp3_tags m ≠ Some ∅ →
  NoDup (Mutagen.HashKey <$> frames_to_add tag_dict flac_obj) →
  (∀ f, f ∈ frames_to_add tag_dict flac_obj →
        default ∅ (mp3_tags m) !! Mutagen.HashKey f = None) →
  ∃ w' saved tag,
    _copy_tags tag_dict flac_obj mp3_path w = (Ok tt, w')
    ∧ w_fs w' !! mp3_path = Some (Mp3File saved)
    ∧ mp3_v2_version saved = 4
    ∧ mp3_has_v1 saved = false
    ∧ mp3_tags saved = Some tag
    ∧ (∀ k v, tag_dict !! k = Some v →
         let f := match VORBIS_TO_ID3_MAP !! k with
                  | Some frame_name => TextFrame frame_name 3 v
                  | None => TXXX 3 k v
                  end in
         tag !! Mutagen.HashKey f = Some f)
    ∧ (∀ pic, pic ∈ flac_pictures flac_obj →
         let f := APIC 3 (pic_mime pic) (pic_type pic) (pic_desc pic) (pic_data pic) in
         tag !! Mutagen.HashKey f = Some f)
    ∧ (∀ key f, default ∅ (mp3_tags m) !! key = Some f → tag !! key = Some f)
    ∧ (∀ key f, tag !! key = Some f →
         default ∅ (mp3_tags m) !! key = Some f
         ∨ (∃ k v, tag_dict !! k = Some v ∧ f = _get_id3_frame k v)
         ∨ (∃ pic, pic ∈ flac_pictures flac_obj ∧ f = apic_of pic)).
Proof.
  intros Hopen Hfill Hnd Hfree.
  destruct (foldl_add_fresh (frames_to_add tag_dict flac_obj) (default ∅ (mp3_tags m))
              Hnd Hfree) as [Hin Hout].
  eexists _, _, _. split; [apply (copy_tags_run _ _ _ _ m Hopen Hfill)|].
  cbn [w_fs]. rewrite lookup_insert_eq. cbn [mp3_tags mp3_v2_version mp3_has_v1].
  repeat (split; [done|]). split; [|split; [|split]].
  - intros k v Hk. apply (Hin (_get_id3_frame k v)). by apply frames_to_add_tag.
  - intros pic Hp. apply (Hin (apic_of pic)). by apply frames_to_add_picture.
  - intros key f Hf. rewrite Hout; [done|].
    intros g Hg <-. rewrite (Hfree g Hg) in Hf. done.
  - intros key f Hf.
    destruct (decide (key ∈ Mutagen.HashKey <$> frames_to_add tag_dict flac_obj))
      as [Hkey|Hkey].
    + apply list_elem_of_fmap in Hkey as (g & -> & Hg).
      rewrite (Hin g Hg) in Hf. injection Hf as <-.
      right. by apply frames_to_add_inv.
    + left. rewrite <- Hf. symmetry. apply Hout.
      intros g Hg <-. apply Hkey. by apply list_elem_of_fmap_2.
Qed.

(** A mapped key, an unmapped key and a picture, through the theorem. *)
Lemma C8_copy_tags_witness :
  let w := Sample.world_of [("/cd", Dir); ("/cd/01.mp3", Mp3File Sample.fresh_mp3)] in
  let tag_dict : tagdict := list_to_map [("title", ["One"]); ("mood", ["calm"; "slow"])] in
  ∃ w' saved,
    @_copy_tags Sample.host tag_dict Sample.one "/cd/01.mp3" w = (Ok tt, w')
    ∧ w_fs w' !! "/cd/01.mp3" = Some (Mp3File saved)
    ∧ mp3_v2_version saved = 4
    ∧ mp3_has_v1 saved = false
    ∧ ∃ tag, mp3_tags saved = Some tag
        ∧ tag !! "TIT2" = Some (TextFrame "TIT2" 3 ["One"])
        ∧ tag !! "TXXX:mood" = Some (TXXX 3 "mood" ["calm"; "slow"])
        ∧ tag !! "APIC:" = Some (APIC 3 "image/jpeg" 3 "" "JFIF").
Proof.
  intros w tag_dict.
  destruct (@C8_copy_tags_writes_every_tag_and_picture Sample.host
              tag_dict Sample.one "/cd/01.mp3" w Sample.fresh_mp3)
    as (w' & saved & tag & Hrun & Hsaved & Hv2 & Hv1 & Htags & Htag & Hpic & _).
  - by vm_compute.
  - done.
  - compute_done.
  - intros f _. apply lookup_empty.
  - exists w', saved. split; [exact Hrun|]. split; [exact Hsaved|].
    split; [exact Hv2|]. split; [exact Hv1|].
    exists tag. split; [exact Htags|].
    split; [|split].
    + apply (Htag "title" ["One"]). by vm_compute.
    + apply (Htag "mood" ["calm"; "slow"]). by vm_compute.
    + apply (Hpic Sample.cover). by left.
Defined.

(** ** The description generator *)

(** C9 (as stated), refuted: for the label ["V0"] the engine spawns the
    decoder with [-Vdsc] and an output file, and the encoder with
    [--quiet] and [--add-id3v2]; none of the three occurs in the text
    that [generate_transcode_description] returns, which shows a pipe from
    [flac -dcs] into [lame -S]. *)
Lemma C9_description_differs_from_the_spawned_commands :
  ∃ text,
    generate_transcode_description "https://tracker.example/torrents.php?id=1" "V0"
    = Ok text
    ∧ (∀ tmp_path flac_path, "-Vdsc" ∈ flac_cmd tmp_path flac_path)
    ∧ (∀ preset tmp_path mp3_path,
         "--quiet" ∈ lame_cmd preset tmp_path mp3_path
         ∧ "--add-id3v2" ∈ lame_cmd preset tmp_path mp3_path)
    ∧ PyStr.contains "-Vdsc" text = false
    ∧ PyStr.contains "--quiet" text = false
    ∧ PyStr.contains "--add-id3v2" text = false
    ∧ PyStr.contains "flac -dcs -- input.flac | lame -S " text = true.
Proof.
  eexists. split; [by vm_compute|]. split; [|split].
  - intros tmp_path flac_path. unfold flac_cmd, FLAC_DECODE_OPTIONS. simpl.
    apply elem_of_cons. right. by left.
  - intros preset tmp_path mp3_path. unfold lame_cmd, LAME_OPTIONS.
    split; apply elem_of_app; right; apply elem_of_app; right; apply elem_of_app; left.
    + by left.
    + apply elem_of_cons. right. by left.
  - repeat split; by vm_compute.
Qed.

(** C9 (amended).  For each label of [LAME_COMMAND_MAP] the description
    generator returns the source line followed by a fixed pipeline,
    [flac -dcs -- input.flac | lame -S <flags> - output.mp3], whose flags
    are those of the encoder preset of the label and
    [--ignore-tag-errors]; for any other label it raises [KeyError], as
    the engine does when it looks up the preset. *)
Theorem C9_description_shows_a_fixed_pipeline url bitrate :
  match LAME_COMMAND_MAP !! bitrate with
  | Some preset =>
      ∃ lame_command,
        generate_transcode_description url bitrate
        = Ok ("[b]Source:[/b] " ++ url ++ newline
              ++ "[b]Transcode process:[/b] [code]flac -dcs -- input.flac | lame -S "
              ++ lame_command ++ " - output.mp3[/code]" ++ newline)
        ∧ (∀ flag, flag ∈ PyStr.split " " lame_command
                   ↔ flag ∈ preset ∨ flag = "--ignore-tag-errors")
  | None =>
      generate_transcode_description url bitrate = Raise (KeyError bitrate)
      ∧ lame_preset bitrate = Raise (KeyError bitrate)
  end.
Proof.
  unfold generate_transcode_description, lame_preset.
  destruct (decide (bitrate = "V0")) as [->|HV0];
    [|destruct (decide (bitrate = "320")) as [->|H320]].
  - exists "-V 0 --vbr-new --ignore-tag-errors". split; [by vm_compute|].
    intros flag. vm_compute (PyStr.split _ _).
    change (LAME_COMMAND_MAP !! "V0") with (Some ["-V"; "0"; "--vbr-new"]). cbv iota.
    rewrite !elem_of_cons, !elem_of_nil. tauto.
  - exists "-h -b 320 --ignore-tag-errors". split; [by vm_compute|].
    intros flag. vm_compute (PyStr.split _ _).
    rewrite !elem_of_cons, !elem_of_nil. tauto.
  - assert (LAME_COMMAND_MAP !! bitrate = None) as ->.
    { unfold LAME_COMMAND_MAP. by rewrite !lookup_insert_ne, lookup_empty. }
    assert (described_lame_command !! bitrate = None) as ->; [|done].
    unfold described_lame_command. simpl.
    by rewrite !lookup_insert_ne, lookup_empty.
Qed.

(** ** The Item Collector *)

Section Extensions.

Lemma endswith_upper_not_lower name :
  PyStr.endswith ".FLAC" name = true → PyStr.endswith ".flac" name = false.
Proof.
  unfold PyStr.endswith. destruct (String.rev name) as [|c r]; [done|].
  change (String.rev ".FLAC") with "CALF.". change (String.rev ".flac") with "calf.".
  change (String.prefix "CALF." (String c r))
    with (if ascii_dec "C" c then String.prefix "ALF." r else false).
  change (String.prefix "calf." (String c r))
    with (if ascii_dec "c" c then String.prefix "alf." r else false).
  destruct (ascii_dec "C" c) as [<-|]; [intros _; by vm_compute|discriminate].
Qed.

End Extensions.

(** C10.  Every item that the collector constructs comes from a path
    whose name ends in the lower-case [.flac]: a file whose name does not,
    such as one with the extension [.FLAC], is the source of no item.  The
    tests of the Lossless Validator and of the Auxiliary Copier give the
    same answer for a name and for the name in lower case, which the
    pattern of the collector does not. *)
Theorem C10_collector_takes_lower_case_flac_only path new_path w items w' :
  _collect_transcode_items path new_path w = (Ok items, w') →
  (∀ item, item ∈ items → PyStr.endswith ".flac" (OsPath.basename (src item)) = true)
  ∧ (∀ p, PyStr.endswith ".flac" (OsPath.basename p) = false →
          ∀ item, item ∈ items → src item ≠ p)
  ∧ (∀ p, PyStr.endswith ".FLAC" (OsPath.basename p) = true →
          ∀ item, item ∈ items → src item ≠ p)
  ∧ (∀ f, is_lossy_name (PyStr.lower f) = is_lossy_name f)
  ∧ (∀ p, is_sidecar (PyStr.lower p) = is_sidecar p)
  ∧ Pathlib.matches_star_flac "/cd/02.FLAC" = false
  ∧ Pathlib.matches_star_flac (PyStr.lower "/cd/02.FLAC") = true
  ∧ is_lossy_name "bonus.MP3" = true
  ∧ is_sidecar "/cd/cover.JPG" = true.
Proof.
  intros Hc.
  assert (∀ item, item ∈ items
                  → PyStr.endswith ".flac" (OsPath.basename (src item)) = true) as Hlow.
  { intros item Hitem.
    by destruct (collected_item _ _ _ _ _ _ Hc Hitem) as (_ & Hm & _). }
  assert (∀ p, PyStr.endswith ".flac" (OsPath.basename p) = false →
               ∀ item, item ∈ items → src item ≠ p) as Hnot.
  { intros p Hp item Hitem Heq. specialize (Hlow _ Hitem). rewrite Heq in Hlow.
    congruence. }
  split; [done|]. split; [done|]. split.
  { intros p Hp. by apply Hnot, endswith_upper_not_lower. }
  split; [apply is_lossy_name_lower|]. split; [apply is_sidecar_lower|].
  repeat split; by vm_compute.
Qed.

(** The album of the sample: [01.flac] is collected and [02.FLAC] is not,
    while [cover.JPG] is copied. *)
Lemma C10_collector_witness :
  _collect_transcode_items "/cd" "/cd [MP3 V0]" Sample.album
  = (Ok [Sample.first_item], Sample.album)
  ∧ ∀ item, item ∈ [Sample.first_item] → src item ≠ "/cd/02.FLAC".
Proof.
  assert (_collect_transcode_items "/cd" "/cd [MP3 V0]" Sample.album
          = (Ok [Sample.first_item], Sample.album)) as Hrun
    by (vm_compute; reflexivity).
  split; [exact Hrun|].
  destruct (C10_collector_takes_lower_case_flac_only _ _ _ _ _ Hrun)
    as (_ & _ & Hupper & _).
  apply Hupper. by vm_compute.
Defined.

Example copy_extra_files_takes_upper_case :
  w_fs (_copy_extra_files "/cd" "/cd [MP3 V0]" Sample.album).2 !! "/cd [MP3 V0]/cover.JPG"
  = Some (OtherFile "JFIF").
Proof. by vm_compute. Qed.

(** * Further properties *)

(** The Path Namer on a folder without a marker: the bracket token is
    appended to the name, in the same parent directory. *)
Theorem build_output_path_without_marker path bitrate :
  Re.search FLAC_FOLDER_RE (OsPath.basename path) = false →
  Re.search LOSSLESS_FOLDER_RE (OsPath.basename path) = false →
  _build_output_path path bitrate
  = OsPath.join (OsPath.dirname path)
      (OsPath.basename path ++ " [MP3 " ++ bitrate ++ "]").
Proof. intros Hflac Hlossless. unfold _build_output_path. by rewrite Hflac, Hlossless. Qed.

Lemma build_output_path_without_marker_witness :
  _build_output_path "/music/Artist - Album" "320" = "/music/Artist - Album [MP3 320]".
Proof.
  rewrite (build_output_path_without_marker "/music/Artist - Album" "320");
    by vm_compute.
Defined.

(** The Tag Normalizer returns no key that starts with [replaygain] and
    no key of [FLAC_TAGS_NOT_TO_COPY]. *)
Theorem prepare_tags_drops_unwanted (raw r : tagdict) k :
  _prepare_tags raw = Ok r →
  unwanted k = true →
  r !! k = None.
Proof.
  rewrite prepare_tags_unfold. intros Hr Hk.
  destruct (merge_totals (drop_unwanted raw) _) as [r1|e] eqn:E1; [cbn [res_bind] in Hr|done].
  apply merge_totals_Ok_inv in E1 as (_ & _ & _ & T4); [|compute_done].
  apply merge_totals_Ok_inv in Hr as (_ & _ & _ & D4); [|compute_done].
  assert (∀ tag tots, (tag, tots) ∈ _TOT_MAP → (k ∉ tots) ∧ (k ≠ tag)) as Hout.
  { intros tag tots Hin. split.
    - intros Hk'. rewrite (tot_map_wanted tag tots k Hin) in Hk; [done|by right].
    - intros ->. rewrite (tot_map_wanted tag tots tag Hin) in Hk; [done|by left]. }
  destruct (Hout "tracknumber" ["tracktotal"; "totaltracks"; "total tracks"])
    as [Ht1 Ht2]; [compute_done|].
  destruct (Hout "discnumber" ["disctotal"; "totaldiscs"; "total discs"])
    as [Hd1 Hd2]; [compute_done|].
  rewrite (D4 k Hd1 Hd2), (T4 k Ht1 Ht2).
  by apply lookup_drop_unwanted_gone.
Qed.

Lemma prepare_tags_drops_unwanted_witness :
  _prepare_tags (list_to_map [("replaygain_track_gain", ["-3 dB"]); ("encoder", ["x"]);
                              ("title", ["t"])])
  = Ok {[ "title" := ["t"] ]}
  ∧ ({[ "title" := ["t"] ]} : tagdict) !! "replaygain_track_gain" = None.
Proof.
  assert (_prepare_tags (list_to_map [("replaygain_track_gain", ["-3 dB"]);
                                      ("encoder", ["x"]); ("title", ["t"])])
          = Ok {[ "title" := ["t"] ]}) as Hrun by (vm_compute; reflexivity).
  split; [exact Hrun|].
  apply (prepare_tags_drops_unwanted _ _ "replaygain_track_gain" Hrun). reflexivity.
Defined.

(** The Lossless Validator returns, and leaves the world as it was, when
    no file below the source has a lossy extension; it raises [Abort],
    with the file system untouched and no process spawned, when one
    has. *)
Theorem validate_lossless_decides path w :
  ((∀ f, f ∈ Os.files_below path (w_fs w) → is_lossy_name f = false) →
     _validate_lossless path w = (Ok tt, w))
  ∧ (∀ f, f ∈ Os.files_below path (w_fs w) → is_lossy_name f = true →
       ∃ w', _validate_lossless path w = (Raise Abort, w')
             ∧ w_fs w' = w_fs w ∧ w_spawned w' = w_spawned w).
Proof.
  split.
  - apply validate_lossless_accepts.
  - apply validate_lossless_aborts.
Qed.

(** ** More on the Tag Normalizer *)

Section TagNormalizerMore.
Implicit Types (d result r raw : tagdict) (k tag : string) (tots used : list string).

Lemma used_keys_none tots d :
  (∀ k, k ∈ tots → d !! k = None) → used_keys tots d = [].
Proof.
  intros Hnone. apply elem_of_nil_inv. intros k Hk.
  apply elem_of_used_keys in Hk as [Hin [v Hv]]. rewrite (Hnone k Hin) in Hv. done.
Qed.

Lemma drop_unwanted_is_Some d k : is_Some (drop_unwanted d !! k) → is_Some (d !! k).
Proof. intros [v Hv]. apply map_lookup_filter_Some in Hv as [Hv _]. eauto. Qed.

(** A merge that returns adds no key. *)
Lemma merge_totals_dom d tag tots r k :
  tag ∉ tots →
  merge_totals d (tag, tots) = Ok r →
  is_Some (r !! k) → is_Some (d !! k).
Proof.
  intros Htag Hr Hk.
  destruct (merge_totals_Ok_inv d tag tots r Htag Hr) as (H1 & H2 & H3 & H4).
  destruct (decide (k = tag)) as [->|Hne]; [by apply H3|].
  destruct (decide (k ∈ tots)) as [Hin|Hout].
  - destruct (d !! tag) as [v|] eqn:Hv.
    + rewrite H1 in Hk by eauto. by destruct Hk.
    + by rewrite (H2 eq_refl) in Hk.
  - by rewrite H4 in Hk.
Qed.

(** The filter finds nothing to drop in what the Tag Normalizer returns. *)
Lemma prepare_tags_clean d r : _prepare_tags d = Ok r → drop_unwanted r = r.
Proof.
  rewrite prepare_tags_unfold. intros Hr.
  destruct (merge_totals (drop_unwanted d) _) as [r1|e] eqn:E1; [cbn [res_bind] in Hr|done].
  apply merge_totals_Ok_inv in E1 as (_ & _ & _ & T4); [|compute_done].
  apply merge_totals_Ok_inv in Hr as (_ & _ & _ & D4); [|compute_done].
  apply map_filter_id. intros k v Hk. simpl.
  destruct (unwanted k) eqn:Hu; [|done].
  assert (∀ tag tots, (tag, tots) ∈ _TOT_MAP → (k ∉ tots) ∧ (k ≠ tag)) as Hout.
  { intros tag tots Hin. split.
    - intros Hk'. rewrite (tot_map_wanted tag tots k Hin) in Hu; [done|by right].
    - intros ->. rewrite (tot_map_wanted tag tots tag Hin) in Hu; [done|by left]. }
  destruct (Hout "tracknumber" ["tracktotal"; "totaltracks"; "total tracks"])
    as [Ht1 Ht2]; [compute_done|].
  destruct (Hout "discnumber" ["disctotal"; "totaldiscs"; "total discs"])
    as [Hd1 Hd2]; [compute_done|].
  rewrite (D4 k Hd1 Hd2), (T4 k Ht1 Ht2), lookup_drop_unwanted_gone in Hk; done.
Qed.

End TagNormalizerMore.

(** The mapping that the Tag Normalizer returns keeps, with their values,
    the keys that are neither dropped nor in a merge group, and a primary
    key none of whose total-synonym keys is present; it holds no key that
    the input does not hold. *)
Theorem prepare_tags_keeps_the_rest (raw r : tagdict) :
  _prepare_tags raw = Ok r →
  (∀ k, unwanted k = false →
        (∀ tag tots, (tag, tots) ∈ _TOT_MAP → k ≠ tag ∧ k ∉ tots) →
        r !! k = raw !! k)
  ∧ (∀ tag tots, (tag, tots) ∈ _TOT_MAP → used_keys tots raw = [] →
       r !! tag = raw !! tag)
  ∧ (∀ k, is_Some (r !! k) → is_Some (raw !! k)).
Proof.
  rewrite prepare_tags_unfold. intros Hr.
  destruct (merge_totals (drop_unwanted raw) _) as [r1|e] eqn:E1; [cbn [res_bind] in Hr|done].
  pose proof E1 as E1'. pose proof Hr as Hr'.
  apply merge_totals_Ok_inv in E1' as (T1 & T2 & T3 & T4); [|compute_done].
  apply merge_totals_Ok_inv in Hr' as (D1 & D2 & D3 & D4); [|compute_done].
  split; [|split].
  - intros k Hk Hout.
    destruct (Hout "tracknumber" ["tracktotal"; "totaltracks"; "total tracks"])
      as [Ht1 Ht2]; [compute_done|].
    destruct (Hout "discnumber" ["disctotal"; "totaldiscs"; "total discs"])
      as [Hd1 Hd2]; [compute_done|].
    rewrite (D4 k Hd2 Hd1), (T4 k Ht2 Ht1). by apply lookup_drop_unwanted.
  - intros tag tots Hin Hused.
    destruct (group_after_filter raw tag tots Hin) as (Ftag & Fused & _).
    rewrite Hused in Fused. tot_cases Hin.
    + rewrite (merge_totals_bare _ _ _ Fused) in E1. injection E1 as <-.
      rewrite D4; [done|compute_done..].
    + assert (used_keys ["disctotal"; "totaldiscs"; "total discs"] r1 = []) as Hused1.
      { rewrite (used_keys_ext _ r1 (drop_unwanted raw)); [exact Fused|].
        intros k Hk. apply T4; key_cases Hk; compute_done. }
      rewrite (merge_totals_bare _ _ _ Hused1) in Hr. injection Hr as <-.
      rewrite T4; [done|compute_done..].
  - intros k Hk. apply drop_unwanted_is_Some.
    eapply merge_totals_dom; [|exact E1|]; [compute_done|].
    eapply merge_totals_dom; [|exact Hr|exact Hk]. compute_done.
Qed.

(** A mapping with a title, a bare disc number and a merged track
    number, through the theorem. *)
Lemma prepare_tags_keeps_the_rest_witness :
  let raw : tagdict := list_to_map [("title", ["t"]); ("discnumber", ["1"]);
                                   ("tracknumber", ["3"]); ("tracktotal", ["12"])] in
  ∃ r, _prepare_tags raw = Ok r
       ∧ r !! "title" = Some ["t"]
       ∧ r !! "discnumber" = Some ["1"].
Proof.
  intros raw.
  pose (r := (list_to_map [("title", ["t"]); ("discnumber", ["1"]);
                           ("tracknumber", ["3/12"])] : tagdict)).
  assert (_prepare_tags raw = Ok r) as Hrun by (vm_compute; reflexivity).
  destruct (prepare_tags_keeps_the_rest raw r Hrun) as (Hkeep & Hbare & _).
  exists r. split; [exact Hrun|]. split.
  - rewrite (Hkeep "title"); [by vm_compute|reflexivity|].
    intros tag tots Hin. tot_cases Hin; split; compute_done.
  - rewrite (Hbare "discnumber" ["disctotal"; "totaldiscs"; "total discs"]);
      [by vm_compute|compute_done|by vm_compute].
Defined.

(** Normalising a mapping that the Tag Normalizer returned gives the same
    mapping back. *)
Theorem prepare_tags_idempotent (raw r : tagdict) :
  _prepare_tags raw = Ok r → _prepare_tags r = Ok r.
Proof.
  intros Hr.
  pose proof (prepare_tags_clean raw r Hr) as Hclean.
  assert (∀ tag tots, (tag, tots) ∈ _TOT_MAP → merge_totals r (tag, tots) = Ok r)
    as Hstep.
  { intros tag tots Hin.
    destruct (prepare_tags_group raw r tag tots Hr Hin) as (Hgone & _ & Hsame).
    destruct (r !! tag) as [v|] eqn:Hv; [|by apply merge_totals_skip].
    apply merge_totals_bare, used_keys_none. apply Hgone, Hsame. eauto. }
  rewrite prepare_tags_unfold, Hclean.
  rewrite Hstep by compute_done. cbn [res_bind]. apply Hstep. compute_done.
Qed.

Lemma prepare_tags_idempotent_witness :
  _prepare_tags {[ "tracknumber" := ["3/12"] ]} = Ok {[ "tracknumber" := ["3/12"] ]}.
Proof.
  apply (prepare_tags_idempotent
           (list_to_map [("tracknumber", ["3"]); ("tracktotal", ["12"])])).
  vm_compute. reflexivity.
Defined.

Section UnreadableTotal.
Implicit Types (d raw : tagdict) (k tag : string) (tots l : list string).

Lemma total_of_unreadable d k :
  is_Some (d !! k) → first_total d k = None → ∃ e, total_of d k = Raise e ∧ unreadable e.
Proof.
  intros [v Hv]. unfold first_total, total_of, getitem, first, PyInt.int. rewrite Hv.
  destruct v as [|x v]; simpl.
  - intros _. exists IndexError. split; [done|by left].
  - destruct (PyInt.parse x); [done|]. intros _.
    exists (IntValueError x). split; [done|]. right. eauto.
Qed.

Lemma total_of_present d k :
  is_Some (d !! k) →
  (∃ z, total_of d k = Ok z) ∨ (∃ e, total_of d k = Raise e ∧ unreadable e).
Proof.
  intros Hk. destruct (first_total d k) as [z|] eqn:E.
  - left. exists z. by apply total_of_Ok.
  - right. by apply total_of_unreadable.
Qed.

Lemma res_map_total_of_unreadable d l k :
  (∀ k', k' ∈ l → is_Some (d !! k')) →
  k ∈ l → first_total d k = None →
  ∃ e, res_map (total_of d) l = Raise e ∧ unreadable e.
Proof.
  induction l as [|k' l IH]; intros Hall Hk Hnone; [by apply elem_of_nil in Hk|].
  cbn [res_map].
  destruct (total_of_present d k') as [[z Hz]|(e & He & Hu)]; [apply Hall; left|..].
  - rewrite Hz. cbn [res_bind].
    apply elem_of_cons in Hk as [->|Hk].
    + apply total_of_Ok in Hz. congruence.
    + destruct IH as (e & He & Hu); [intros; apply Hall; by right|done..|].
      rewrite He. eauto.
  - rewrite He. eauto.
Qed.

Lemma merge_totals_unreadable d tag tots k :
  is_Some (d !! tag) →
  k ∈ used_keys tots d → first_total d k = None →
  ∃ e, merge_totals d (tag, tots) = Raise e ∧ unreadable e.
Proof.
  intros [v Hv] Hk Hnone. unfold merge_totals. rewrite Hv.
  destruct (used_keys tots d) as [|u used] eqn:E; [by apply elem_of_nil in Hk|].
  destruct (res_map_total_of_unreadable d (u :: used) k) as (e & He & Hu); [|done..|].
  { intros k' Hk'. rewrite <- E in Hk'. by apply elem_of_used_keys in Hk' as [_ ?]. }
  rewrite He. eauto.
Qed.

End UnreadableTotal.

(** When a primary key is present and the first value of one of its
    present total-synonym keys is missing or is not an integer, the Tag
    Normalizer raises the exception of the reading ([IndexError], or the
    [ValueError] of [int]) and returns no mapping, provided the merge of
    the other group does not raise before. *)
Theorem prepare_tags_rejects_unreadable_total (raw : tagdict) tag tots k :
  (tag, tots) ∈ _TOT_MAP →
  is_Some (raw !! tag) →
  k ∈ used_keys tots raw →
  first_total raw k = None →
  (∀ entry, entry ∈ _TOT_MAP → entry ≠ (tag, tots) →
     ∃ r', merge_totals (drop_unwanted raw) entry = Ok r') →
  ∃ e, _prepare_tags raw = Raise e
       ∧ (e = IndexError ∨ ∃ literal, e = IntValueError literal).
Proof.
  intros Hin Htag Hk Hnone Hother.
  destruct (group_after_filter raw tag tots Hin) as (Ftag & Fused & Fk).
  destruct (merge_totals_unreadable (drop_unwanted raw) tag tots k) as (e & He & Hu).
  { by rewrite Ftag. }
  { by rewrite Fused. }
  { rewrite (first_total_ext _ raw); [done|].
    apply Fk. by apply elem_of_used_keys in Hk as [? _]. }
  exists e. split; [|exact Hu].
  rewrite prepare_tags_unfold. tot_cases Hin.
  - by rewrite He.
  - destruct (Hother ("tracknumber", ["tracktotal"; "totaltracks"; "total tracks"]))
      as [r1 Hr1]; [compute_done|done|].
    rewrite Hr1. cbn [res_bind].
    apply merge_totals_Ok_inv in Hr1 as (_ & _ & _ & T4); [|compute_done].
    pose proof (merge_totals_local r1 (drop_unwanted raw) "discnumber"
                  ["disctotal"; "totaldiscs"; "total discs"]) as Hloc.
    rewrite He in Hloc.
    destruct (merge_totals r1 _) as [r|e'].
    + exfalso. apply Hloc; [compute_done|].
      intros k' Hk'. apply T4; key_cases Hk'; compute_done.
    + f_equal. apply Hloc; [compute_done|].
      intros k' Hk'. apply T4; key_cases Hk'; compute_done.
Qed.

(** A total that is not a number, through the theorem. *)
Lemma prepare_tags_rejects_unreadable_total_witness :
  ∃ e, _prepare_tags (list_to_map [("tracknumber", ["3"]); ("tracktotal", ["twelve"])])
       = Raise e
       ∧ (e = IndexError ∨ ∃ literal, e = IntValueError literal).
Proof.
  apply (prepare_tags_rejects_unreadable_total
           (list_to_map [("tracknumber", ["3"]); ("tracktotal", ["twelve"])])
           "tracknumber" ["tracktotal"; "totaltracks"; "total tracks"] "tracktotal").
  - compute_done.
  - exists ["3"]. by vm_compute.
  - compute_done.
  - by vm_compute.
  - intros [tag' tots'] He Hne. tot_cases He; [done|].
    eexists. apply merge_totals_skip. by rewrite lookup_drop_unwanted.
Defined.

(** ** More on paths *)

Section PathOrder.

Lemma parts_leb_total a b :
  Pathlib.parts_leb a b = true ∨ Pathlib.parts_leb b a = true.
Proof.
  revert b. induction a as [|x a IH]; intros [|y b]; simpl; auto.
  rewrite (String.eqb_sym y x).
  destruct (String.eqb x y); [apply IH|apply String.leb_total].
Qed.

Lemma parts_leb_trans a b c :
  Pathlib.parts_leb a b = true → Pathlib.parts_leb b c = true →
  Pathlib.parts_leb a c = true.
Proof.
  revert b c. induction a as [|x a IH]; intros [|y b] [|z c]; simpl; try done.
  destruct (String.eqb_spec x y) as [->|Hxy].
  - destruct (String.eqb_spec y z) as [->|Hyz]; [apply IH|done].
  - destruct (String.eqb_spec y z) as [->|Hyz].
    + intros Hle _. destruct (String.eqb_spec x z); [done|exact Hle].
    + intros Hxy' Hyz'.
      destruct (String.eqb_spec x z) as [->|Hxz].
      * exfalso. apply Hxy. by apply String.leb_antisym.
      * apply Is_true_true. apply Is_true_true in Hxy', Hyz'.
        by apply (transitivity (R := String.le) (y := y)).
Qed.

Lemma path_le_total : Total Pathlib.le.
Proof. intros p q. apply parts_leb_total. Qed.

Lemma path_le_trans : Transitive Pathlib.le.
Proof. intros p q r. apply parts_leb_trans. Qed.

Lemma all_seps_rstrip s : OsPath.all_seps s = false → OsPath.all_seps (OsPath.rstrip_seps s) = false.
Proof.
  induction s as [|c s IH]; [done|]. intros Hs.
  cbn [OsPath.rstrip_seps]. rewrite Hs. cbn [OsPath.all_seps] in *.
  destruct (OsPath.is_sep c); [|done]. simpl in *. by apply IH.
Qed.

Lemma rstrip_seps_idem s : OsPath.rstrip_seps (OsPath.rstrip_seps s) = OsPath.rstrip_seps s.
Proof.
  induction s as [|c s IH]; [done|].
  cbn [OsPath.rstrip_seps]. destruct (OsPath.all_seps (String c s)) eqn:Hs; [done|].
  cbn [OsPath.rstrip_seps].
  assert (OsPath.all_seps (String c (OsPath.rstrip_seps s)) = false) as ->.
  { cbn [OsPath.all_seps] in *. destruct (OsPath.is_sep c); [|done]. simpl in *.
    by apply all_seps_rstrip. }
  by rewrite IH.
Qed.

(** [Path(Path(p))] is [Path(p)]. *)
Lemma Path_idem p : Pathlib.Path (Pathlib.Path p) = Pathlib.Path p.
Proof.
  unfold Pathlib.Path. destruct (OsPath.all_seps p) eqn:Hp.
  - by destruct (String.eqb p "").
  - rewrite all_seps_rstrip by done. apply rstrip_seps_idem.
Qed.

End PathOrder.

(** ** More on the Item Collector *)

Section CollectorMore.

(** The paths that [sorted(src_path.rglob("*.flac"))] lists. *)
Lemma sorted_rglob_flac_spec top w :
  ∃ files,
    Os.sorted_rglob_flac top w = (Ok files, w)
    ∧ (∀ p, p ∈ files ↔ PyStr.startswith (Pathlib.below (Pathlib.Path top)) p = true
                          ∧ Pathlib.matches_star_flac p = true
                          ∧ is_Some (w_fs w !! p))
    ∧ NoDup files
    ∧ StronglySorted Pathlib.le files.
Proof.
  eexists. split; [reflexivity|]. split; [|split].
  - intros p. rewrite merge_sort_Permutation, list_elem_of_filter.
    unfold Os.entries_below. rewrite list_elem_of_fmap. split.
    + intros (Hm & [q n] & -> & Hq). apply list_elem_of_filter in Hq as [Hb Hq].
      apply elem_of_map_to_list in Hq. simpl in *. eauto.
    + intros (Hb & Hm & n & Hn). split; [done|]. exists (p, n). split; [done|].
      apply list_elem_of_filter. split; [done|]. by apply elem_of_map_to_list.
  - rewrite merge_sort_Permutation. apply NoDup_filter.
    eapply sublist_NoDup; [apply (NoDup_fst_map_to_list (w_fs w))|].
    apply fmap_sublist, sublist_filter.
  - apply (@StronglySorted_merge_sort _ Pathlib.le _ path_le_trans path_le_total).
Qed.

Lemma collect_sources path new_path w items w' :
  _collect_transcode_items path new_path w = (Ok items, w') →
  w' = w
  ∧ Os.sorted_rglob_flac (Pathlib.Path path) w = (Ok (src <$> items), w).
Proof.
  unfold _collect_transcode_items, bind, Os.sorted_rglob_flac, gets.
  set (files := merge_sort _ _).
  destruct (map_M_read_only
              (collect_one (Pathlib.Path path) (Pathlib.Path new_path)) files w
              (collect_one_world _ _)) as [Hw Hr].
  destruct (map_M _ files w) as [r w1]; simpl in Hw, Hr; subst w1.
  intros [= -> <-]. split; [done|]. f_equal. f_equal.
  specialize (Hr items eq_refl). clear -Hr.
  induction Hr as [|f item files items Hone _ IH]; [done|].
  cbn [fmap list_fmap]. apply collect_one_Ok in Hone as [-> _]. by rewrite <- IH.
Qed.

Lemma collect_world path new_path w : (_collect_transcode_items path new_path w).2 = w.
Proof.
  unfold _collect_transcode_items, bind, Os.sorted_rglob_flac, gets.
  set (files := merge_sort _ _).
  by destruct (map_M_read_only
                 (collect_one (Pathlib.Path path) (Pathlib.Path new_path)) files w
                 (collect_one_world _ _)) as [Hw _].
Qed.

End CollectorMore.

(** When the collector returns, there is one item for each path below
    the source whose name ends in [.flac], and no other: the sources of
    the items are these paths, without repetition and in the order of
    paths (component by component). *)
Theorem collector_lists_every_flac_path_once_in_order path new_path w items w' :
  _collect_transcode_items path new_path w = (Ok items, w') →
  (∀ p, p ∈ src <$> items
        ↔ PyStr.startswith (Pathlib.below (Pathlib.Path path)) p = true
          ∧ Pathlib.matches_star_flac p = true
          ∧ is_Some (w_fs w !! p))
  ∧ NoDup (src <$> items)
  ∧ StronglySorted Pathlib.le (src <$> items).
Proof.
  intros Hc. apply collect_sources in Hc as [_ Hfiles].
  destruct (sorted_rglob_flac_spec (Pathlib.Path path) w) as (files & Hrun & Hin & Hnd & Hs).
  rewrite Hfiles in Hrun. injection Hrun as <-.
  split; [|done]. intros p. rewrite Hin. by rewrite Path_idem.
Qed.

(** The sample album, through the theorem. *)
Lemma collector_lists_every_flac_path_witness :
  NoDup (src <$> [Sample.first_item])
  ∧ ("/cd/01.flac" ∈ src <$> [Sample.first_item]
     ↔ PyStr.startswith (Pathlib.below (Pathlib.Path "/cd")) "/cd/01.flac" = true
       ∧ Pathlib.matches_star_flac "/cd/01.flac" = true
       ∧ is_Some (w_fs Sample.album !! "/cd/01.flac")).
Proof.
  assert (_collect_transcode_items "/cd" "/cd [MP3 V0]" Sample.album
          = (Ok [Sample.first_item], Sample.album)) as Hrun
    by (vm_compute; reflexivity).
  destruct (collector_lists_every_flac_path_once_in_order _ _ _ _ _ Hrun)
    as (Hin & Hnd & _).
  split; [exact Hnd|apply Hin].
Defined.

(** The collector leaves the world as it found it, whether it returns or
    raises; and it raises, constructing no item, as soon as one path
    below the source whose name ends in [.flac] is not a FLAC file with a
    Vorbis comment that the Tag Normalizer accepts. *)
Theorem collector_is_read_only_and_all_or_nothing path new_path w :
  (_collect_transcode_items path new_path w).2 = w
  ∧ ∀ p,
      PyStr.startswith (Pathlib.below (Pathlib.Path path)) p = true →
      Pathlib.matches_star_flac p = true →
      is_Some (w_fs w !! p) →
      (∀ f raw t, w_fs w !! p = Some (FlacFile f) →
                  flac_tags f = Some (VCFLACDict raw) →
                  _prepare_tags raw ≠ Ok t) →
      ∃ e, _collect_transcode_items path new_path w = (Raise e, w).
Proof.
  split; [apply collect_world|].
  intros p Hb Hm Hp Hbad.
  pose proof (collect_world path new_path w) as Hw.
  destruct (_collect_transcode_items path new_path w) as [[items|e] w'] eqn:Hc;
    simpl in Hw; subst w'; [|eauto].
  exfalso.
  destruct (collect_sources _ _ _ _ _ Hc) as [_ Hfiles].
  destruct (sorted_rglob_flac_spec (Pathlib.Path path) w) as (files & Hrun & Hin & _).
  rewrite Hfiles in Hrun. injection Hrun as <-.
  assert (p ∈ src <$> items) as Hitem by (apply Hin; by rewrite Path_idem).
  apply list_elem_of_fmap in Hitem as (item & -> & Hitem).
  destruct (collected_item _ _ _ _ _ _ Hc Hitem) as (_ & _ & raw & Hf & Ht & Hprep).
  by apply (Hbad _ _ (tags item) Hf Ht).
Qed.

(** A file named [01.flac] that is no FLAC file, through the theorem. *)
Lemma collector_is_read_only_and_all_or_nothing_witness :
  let w := Sample.world_of [("/cd", Dir); ("/cd/01.flac", OtherFile "RIFF")] in
  ∃ e, _collect_transcode_items "/cd" "/o" w = (Raise e, w).
Proof.
  intros w.
  apply (proj2 (collector_is_read_only_and_all_or_nothing "/cd" "/o" w) "/cd/01.flac").
  - reflexivity.
  - reflexivity.
  - exists (OtherFile "RIFF"). vm_compute. reflexivity.
  - intros f raw t Hf. vm_compute in Hf. discriminate.
Defined.

(** ** More on strings *)

Section StringsMore.

Lemma append_assoc (a b c : string) : (a ++ b) ++ c = a ++ (b ++ c).
Proof.
  induction a as [|x a IH]; [done|].
  change ((String x a ++ b) ++ c) with (String x ((a ++ b) ++ c)).
  change (String x a ++ (b ++ c)) with (String x (a ++ (b ++ c))).
  by rewrite IH.
Qed.

Lemma rev_app_append (a b : string) : String.rev_app a b = String.rev a ++ b.
Proof.
  revert b. induction a as [|x a IH]; intros b; [done|].
  unfold String.rev. cbn [String.rev_app].
  rewrite (IH (String x b)), (IH (String x "")). by rewrite append_assoc.
Qed.

Lemma rev_app_app (a b acc : string) :
  String.rev_app (a ++ b) acc = String.rev_app b (String.rev_app a acc).
Proof. revert acc. induction a as [|x a IH]; intros acc; [done|]. simpl. apply IH. Qed.

Lemma rev_append (a b : string) : String.rev (a ++ b) = String.rev b ++ String.rev a.
Proof. unfold String.rev at 1. by rewrite rev_app_app, rev_app_append. Qed.

(** [(a + s).endswith(s)], and [(a + b).endswith(s)] when [b.endswith(s)]. *)
Lemma endswith_app (s a : string) : PyStr.endswith s (a ++ s) = true.
Proof. unfold PyStr.endswith. rewrite rev_append. apply prefix_app. Qed.

Lemma endswith_app_r (s a b : string) :
  PyStr.endswith s b = true → PyStr.endswith s (a ++ b) = true.
Proof. unfold PyStr.endswith. rewrite rev_append. apply prefix_app_r. Qed.

Lemma join_endswith (s a b : string) :
  PyStr.endswith s b = true → PyStr.endswith s (OsPath.join a b) = true.
Proof.
  intros Hb. unfold OsPath.join.
  destruct (PyStr.startswith "/" b); [done|].
  destruct (_ || _); by repeat apply endswith_app_r.
Qed.

End StringsMore.

Section Destinations.

Lemma collect_one_dst src_path dst_path flac_file w item w' :
  collect_one src_path dst_path flac_file w = (Ok item, w') →
  ∃ rel, Pathlib.relative_to src_path flac_file = Ok rel
         ∧ dst item = Pathlib.joinpath dst_path (Pathlib.with_suffix ".mp3" rel).
Proof.
  unfold collect_one, bind.
  destruct (_parse_flac_tags flac_file w) as [[[fl t]|e] w1]; [|done].
  unfold lift, ret. destruct (Pathlib.relative_to _ _) as [rel|]; [|done].
  intros [= <- <-]. eauto.
Qed.

End Destinations.

(** The destination of every collected item is the path of its source
    relative to the source root, with the suffix replaced by [.mp3],
    joined to the destination root; it ends in [.mp3]. *)
Theorem collected_item_destination path new_path w items w' item :
  _collect_transcode_items path new_path w = (Ok items, w') →
  item ∈ items →
  ∃ rel,
    Pathlib.relative_to (Pathlib.Path path) (src item) = Ok rel
    ∧ dst item = Pathlib.joinpath (Pathlib.Path new_path) (Pathlib.with_suffix ".mp3" rel)
    ∧ PyStr.endswith ".mp3" (dst item) = true.
Proof.
  unfold _collect_transcode_items, bind, Os.sorted_rglob_flac, gets.
  set (files := merge_sort _ _).
  destruct (map_M_read_only
              (collect_one (Pathlib.Path path) (Pathlib.Path new_path)) files w
              (collect_one_world _ _)) as [Hw Hr].
  destruct (map_M _ files w) as [r w1]; simpl in Hw, Hr; subst w1.
  intros [= -> <-] Hitem. specialize (Hr items eq_refl).
  apply list_elem_of_lookup in Hitem as [i Hi].
  destruct (Forall2_lookup_r _ _ _ _ _ Hr Hi) as (f & Hf & Hbody).
  pose proof (collect_one_Ok _ _ _ _ _ _ Hbody) as [Hsrc _].
  apply collect_one_dst in Hbody as (rel & Hrel & Hdst).
  exists rel. rewrite Hsrc. split; [done|]. split; [done|].
  rewrite Hdst. unfold Pathlib.joinpath, Pathlib.with_suffix.
  apply join_endswith, endswith_app.
Qed.

(** The first track of the sample album, through the theorem. *)
Lemma collected_item_destination_witness :
  ∃ rel, Pathlib.relative_to (Pathlib.Path "/cd") (src Sample.first_item) = Ok rel
         ∧ PyStr.endswith ".mp3" (dst Sample.first_item) = true.
Proof.
  assert (_collect_transcode_items "/cd" "/cd [MP3 V0]" Sample.album
          = (Ok [Sample.first_item], Sample.album)) as Hrun
    by (vm_compute; reflexivity).
  destruct (collected_item_destination _ _ _ _ _ Sample.first_item Hrun)
    as (rel & Hrel & _ & Hend); [by left|].
  exists rel. split; [exact Hrel|exact Hend].
Defined.

(** ** The Auxiliary Copier *)

Section Copier.

Lemma harmless_ret {A} (a : A) : harmless (ret a).
Proof. by intros w. Qed.

Lemma harmless_raise {A} e : harmless (@raise A e).
Proof. by intros w. Qed.

Lemma harmless_lift {A} (r : res A) : harmless (lift r).
Proof. by intros w. Qed.

Lemma harmless_secho line : harmless (secho line).
Proof. by intros w. Qed.

Lemma harmless_bind {A B} (m : M A) (k : A → M B) :
  harmless m → (∀ a, harmless (k a)) → harmless (bind m k).
Proof.
  intros Hm Hk w. unfold bind. specialize (Hm w).
  destruct (m w) as [[a|e] w1]; simpl in Hm; [|done].
  destruct (Hk a w1) as [Hs Hf]. destruct Hm as [Hs1 Hf1].
  split; [congruence|]. intros p Hp. by apply Hf, Hf1.
Qed.

Lemma harmless_for_each {A} (l : list A) (body : A → M unit) :
  (∀ x, harmless (body x)) → harmless (for_each l body).
Proof.
  intros Hb. induction l as [|x l IH]; [apply harmless_ret|].
  cbn [for_each]. apply harmless_bind; [apply Hb|]. intros _. apply IH.
Qed.

Lemma harmless_mkdir_p p : harmless (Os.mkdir_p p).
Proof.
  apply harmless_for_each. intros d w.
  destruct (w_fs w !! d) as [[]|] eqn:E; simpl; try done.
  split; [done|]. intros q Hq.
  destruct (decide (d = q)) as [->|Hne]; [by rewrite lookup_insert_eq|].
  by rewrite lookup_insert_ne.
Qed.

(** The two ends of a copy: it raises and leaves the world as it was, or
    it puts the file at the target, which is the destination, or the
    entry of the name of the source in the destination when that is a
    directory, and is no directory itself. *)
Lemma copy_cases a b w :
  (∃ e, Os.copy a b w = (Raise e, w))
  ∨ ∃ n target,
      Os.copy a b w = (Ok tt, set_fs (insert target n) w)
      ∧ w_fs w !! a = Some n
      ∧ Os.is_file n = true
      ∧ w_fs w !! target ≠ Some Dir
      ∧ ((w_fs w !! b ≠ Some Dir ∧ target = b)
         ∨ (w_fs w !! b = Some Dir ∧ target = OsPath.join b (OsPath.basename a))).
Proof.
  unfold Os.copy.
  set (target := match w_fs w !! b with
                 | Some Dir => OsPath.join b (OsPath.basename a)
                 | _ => b
                 end).
  assert ((w_fs w !! b ≠ Some Dir ∧ target = b)
          ∨ (w_fs w !! b = Some Dir ∧ target = OsPath.join b (OsPath.basename a)))
    as Htarget.
  { subst target. destruct (w_fs w !! b) as [[]|]; [by right|by left..]. }
  clearbody target.
  destruct (w_fs w !! a) as [n|] eqn:Ea; [|by eauto].
  destruct (Os.is_file n) eqn:Hn; [|destruct n; by eauto].
  destruct n; try done;
    (destruct (String.eqb a target); [by eauto|]);
    (destruct (w_fs w !! target) as [[]|] eqn:Et;
     destruct (w_fs w !! Pathlib.parent target) as [[]|]; try (by eauto);
     right; eexists _, target; rewrite Et; by eauto).
Qed.

Lemma harmless_copy a b : harmless (Os.copy a b).
Proof.
  intros w.
  destruct (copy_cases a b w) as [[e ->]|(n & target & -> & _)]; [done|].
  split; [done|]. intros q Hq. simpl.
  destruct (decide (target = q)) as [->|Hne];
    [by rewrite lookup_insert_eq|by rewrite lookup_insert_ne].
Qed.

End Copier.

(** Whether it returns or raises, the Auxiliary Copier spawns no process
    and removes no entry of the file system. *)
Theorem copy_extra_files_spawns_and_removes_nothing path new_path w :
  w_spawned (_copy_extra_files path new_path w).2 = w_spawned w
  ∧ ∀ p, is_Some (w_fs w !! p)
         → is_Some (w_fs (_copy_extra_files path new_path w).2 !! p).
Proof.
  revert w. change (harmless (_copy_extra_files path new_path)).
  unfold _copy_extra_files. apply harmless_bind; [by intros w|].
  intros ps. apply harmless_for_each. intros p.
  destruct (_ || _); [apply harmless_ret|].
  apply harmless_bind; [apply harmless_lift|]. intros rel.
  apply harmless_bind; [apply harmless_secho|]. intros _.
  apply harmless_bind; [apply harmless_mkdir_p|]. intros _.
  apply harmless_copy.
Qed.

(** ** More on the Transcode Engine *)

Section EngineMore.
Context `{Host}.

Lemma try_finally_spawned {A} (body : M A) tmp_path w rb wb :
  body w = (rb, wb) →
  w_spawned (try_finally body (remove_temp tmp_path) w).2 = w_spawned wb.
Proof.
  intros Hb.
  destruct (try_finally_remove_temp body tmp_path w rb wb Hb)
    as [[_ ->]|[_ (w' & -> & _ & Hs & _)]]; done.
Qed.

(** The [try] block when the decoder cannot be started, and when the
    label has no preset. *)
Lemma decode_not_started lame_qual flac_path mp3_path tmp_path w e fs2 :
  child (flac_cmd tmp_path flac_path) (w_fs w) = (Raise e, fs2) →
  ∃ w2, decode_then_encode lame_qual flac_path mp3_path tmp_path w = (Raise e, w2)
        ∧ w_fs w2 = fs2
        ∧ w_spawned w2 = (w_spawned w ++ [flac_cmd tmp_path flac_path])%list.
Proof.
  intros Hc. unfold decode_then_encode, bind, Os.run_process. rewrite Hc. eauto.
Qed.

Lemma encode_without_preset lame_qual flac_path mp3_path tmp_path w c fs2 :
  child (flac_cmd tmp_path flac_path) (w_fs w) = (Ok c, fs2) →
  returncode c = 0 →
  LAME_COMMAND_MAP !! lame_qual = None →
  ∃ w2, decode_then_encode lame_qual flac_path mp3_path tmp_path w
        = (Raise (KeyError lame_qual), w2)
        ∧ w_fs w2 = fs2
        ∧ w_spawned w2 = (w_spawned w ++ [flac_cmd tmp_path flac_path])%list.
Proof.
  intros Hc Hcode Hp.
  unfold decode_then_encode, bind, Os.run_process, lame_preset, lift.
  rewrite Hc, Hcode. simpl. rewrite Hp. eauto.
Qed.

Lemma encode_started lame_qual flac_path mp3_path tmp_path w c fs2 preset r' fs3 :
  child (flac_cmd tmp_path flac_path) (w_fs w) = (Ok c, fs2) →
  returncode c = 0 →
  LAME_COMMAND_MAP !! lame_qual = Some preset →
  child (lame_cmd preset tmp_path mp3_path) fs2 = (r', fs3) →
  ∃ rb w3, decode_then_encode lame_qual flac_path mp3_path tmp_path w = (rb, w3)
           ∧ w_spawned w3 = (w_spawned w ++ [flac_cmd tmp_path flac_path;
                                             lame_cmd preset tmp_path mp3_path])%list.
Proof.
  intros Hc Hcode Hp Hc'.
  unfold decode_then_encode, bind, Os.run_process, lame_preset, lift.
  rewrite Hc, Hcode. simpl. rewrite Hp, Hc'.
  destruct r' as [c'|e];
    [destruct (negb _);
     [rewrite decoded_or_spec; destruct (String.eqb _ _);
      [|destruct (PyBytes.well_formed _)]|]|];
    eexists _, _; (split; [done|]); simpl; by rewrite <- app_assoc.
Qed.

End EngineMore.

(** The processes of one [_flac_to_mp3]: the decoder is spawned first; the
    encoder is not spawned when the decoder cannot be started or exits
    non-zero; it is spawned second, with the preset of the label and the
    fixed options, between the temporary file and the destination, when
    the decoder exits with zero and the label has a preset. *)
Theorem flac_to_mp3_spawns_decoder_then_encoder `{Host}
    lame_qual flac_path mp3_path w w0 :
  Os.mkdir_p (Pathlib.parent (Pathlib.Path mp3_path)) w = (Ok tt, w0) →
  let tmp_path := temp_name (w_fs w0) in
  let fs1 := <[tmp_path := OtherFile ""]> (w_fs w0) in
  let w' := (_flac_to_mp3 lame_qual flac_path mp3_path w).2 in
  (∀ e fs2,
     child (flac_cmd tmp_path flac_path) fs1 = (Raise e, fs2) →
     w_spawned w' = (w_spawned w ++ [flac_cmd tmp_path flac_path])%list)
  ∧ (∀ c fs2,
       child (flac_cmd tmp_path flac_path) fs1 = (Ok c, fs2) →
       returncode c ≠ 0 →
       w_spawned w' = (w_spawned w ++ [flac_cmd tmp_path flac_path])%list)
  ∧ (∀ c fs2 preset r' fs3,
       child (flac_cmd tmp_path flac_path) fs1 = (Ok c, fs2) →
       returncode c = 0 →
       LAME_COMMAND_MAP !! lame_qual = Some preset →
       child (lame_cmd preset tmp_path mp3_path) fs2 = (r', fs3) →
       w_spawned w'
       = (w_spawned w ++ [ ["flac"; "-Vdsc"; "-o"; tmp_path; flac_path];
                           "lame" :: preset ++ ["--quiet"; "--add-id3v2";
                                                "--ignore-tag-errors";
                                                tmp_path; mp3_path] ])%list).
Proof.
  intros Hmk tmp_path fs1 w'. subst w'.
  rewrite (flac_to_mp3_unfold _ _ _ _ _ Hmk). fold tmp_path.
  set (w1 := set_fs (insert tmp_path (OtherFile "")) w0).
  assert (w_spawned w1 = w_spawned w) as Hsp.
  { pose proof (harmless_mkdir_p (Pathlib.parent (Pathlib.Path mp3_path)) w) as [Hs _].
    rewrite Hmk in Hs. exact Hs. }
  split; [|split].
  - intros e fs2 Hc.
    destruct (decode_not_started lame_qual flac_path mp3_path tmp_path w1 e fs2 Hc)
      as (w2 & Eb & _ & Hs).
    by rewrite (try_finally_spawned _ _ _ _ _ Eb), Hs, Hsp.
  - intros c fs2 Hc Hcode.
    destruct (decode_failure lame_qual flac_path mp3_path tmp_path w1 c fs2 Hc Hcode)
      as (w2 & Eb & _ & Hs & _).
    by rewrite (try_finally_spawned _ _ _ _ _ Eb), Hs, Hsp.
  - intros c fs2 preset r' fs3 Hc Hcode Hp Hc'.
    destruct (encode_started lame_qual flac_path mp3_path tmp_path w1
                c fs2 preset r' fs3 Hc Hcode Hp Hc') as (rb & w3 & Eb & Hs).
    by rewrite (try_finally_spawned _ _ _ _ _ Eb), Hs, Hsp.
Qed.

(** A track in the root directory, through the theorem. *)
Lemma flac_to_mp3_spawns_witness :
  let w := Sample.world_of [("/", Dir); ("/a.flac", FlacFile Sample.one)] in
  w_spawned (@_flac_to_mp3 Sample.host "V0" "/a.flac" "/a.mp3" w).2
  = [ ["flac"; "-Vdsc"; "-o"; "/tmp/t.wav"; "/a.flac"];
      ["lame"; "-V"; "0"; "--vbr-new"; "--quiet"; "--add-id3v2"; "--ignore-tag-errors";
       "/tmp/t.wav"; "/a.mp3"] ].
Proof.
  intros w.
  pose (fs1 := <["/tmp/t.wav" := OtherFile ""]> (w_fs w)).
  pose (fs2 := <["/tmp/t.wav" := OtherFile "RIFF"]> fs1).
  pose (fs3 := <["/a.mp3" := Mp3File Sample.fresh_mp3]> fs2).
  assert (Os.mkdir_p (Pathlib.parent (Pathlib.Path "/a.mp3")) w = (Ok tt, w)) as Hmk
    by (vm_compute; reflexivity).
  destruct (@flac_to_mp3_spawns_decoder_then_encoder Sample.host
              "V0" "/a.flac" "/a.mp3" w w Hmk) as (_ & _ & Hboth).
  apply (Hboth (Sample.done 0 "") fs2 ["-V"; "0"; "--vbr-new"] (Ok (Sample.done 0 "")) fs3).
  - vm_compute. reflexivity.
  - reflexivity.
  - reflexivity.
  - vm_compute. reflexivity.
Defined.

(** A label without a preset is found out after the decoder has run: when
    the decoder exits with zero and [LAME_COMMAND_MAP] has no entry for
    the label, [_flac_to_mp3] raises [KeyError] for the label, the
    decoder is the only process spawned, and nothing is left at the path
    of the temporary file. *)
Theorem flac_to_mp3_unknown_label_fails_after_decoding `{Host}
    lame_qual flac_path mp3_path w w0 c fs2 :
  Os.mkdir_p (Pathlib.parent (Pathlib.Path mp3_path)) w = (Ok tt, w0) →
  LAME_COMMAND_MAP !! lame_qual = None →
  let tmp_path := temp_name (w_fs w0) in
  child (flac_cmd tmp_path flac_path) (<[tmp_path := OtherFile ""]> (w_fs w0)) = (Ok c, fs2) →
  returncode c = 0 →
  fs2 !! tmp_path ≠ Some Dir →
  ∃ w', _flac_to_mp3 lame_qual flac_path mp3_path w = (Raise (KeyError lame_qual), w')
        ∧ w_spawned w' = (w_spawned w ++ [flac_cmd tmp_path flac_path])%list
        ∧ w_fs w' !! tmp_path = None.
Proof.
  intros Hmk Hp tmp_path Hc Hcode Hnodir.
  rewrite (flac_to_mp3_unfold _ _ _ _ _ Hmk). fold tmp_path.
  set (w1 := set_fs (insert tmp_path (OtherFile "")) w0).
  assert (w_spawned w1 = w_spawned w) as Hsp.
  { pose proof (harmless_mkdir_p (Pathlib.parent (Pathlib.Path mp3_path)) w) as [Hs _].
    rewrite Hmk in Hs. exact Hs. }
  destruct (encode_without_preset lame_qual flac_path mp3_path tmp_path w1 c fs2 Hc Hcode Hp)
    as (w2 & Eb & Hfs2 & Hs).
  destruct (try_finally_remove_temp _ tmp_path _ _ _ Eb)
    as [[Hd _]|[_ (w' & Hrun & Hgone & Hs' & _)]]; [congruence|].
  exists w'. split; [exact Hrun|]. split; [|exact Hgone].
  by rewrite Hs', Hs, Hsp.
Qed.

(** The label ["V2"], through the theorem. *)
Lemma flac_to_mp3_unknown_label_witness :
  let w := Sample.world_of [("/", Dir); ("/a.flac", FlacFile Sample.one)] in
  ∃ w', @_flac_to_mp3 Sample.host "V2" "/a.flac" "/a.mp3" w
        = (Raise (KeyError "V2"), w')
        ∧ w_spawned w' = ([] ++ [ flac_cmd "/tmp/t.wav" "/a.flac" ])%list
        ∧ w_fs w' !! "/tmp/t.wav" = None.
Proof.
  intros w.
  pose (fs1 := <["/tmp/t.wav" := OtherFile ""]> (w_fs w)).
  pose (fs2 := <["/tmp/t.wav" := OtherFile "RIFF"]> fs1).
  assert (Os.mkdir_p (Pathlib.parent (Pathlib.Path "/a.mp3")) w = (Ok tt, w)) as Hmk
    by (vm_compute; reflexivity).
  apply (@flac_to_mp3_unknown_label_fails_after_decoding Sample.host
           "V2" "/a.flac" "/a.mp3" w w (Sample.done 0 "") fs2 Hmk).
  - vm_compute. reflexivity.
  - vm_compute. reflexivity.
  - reflexivity.
  - vm_compute. discriminate.
Defined.

(** ** More on the top-level operation *)

(** When a file below the source has a lossy extension, [transcode_folder]
    raises [Abort] before anything else: the file system is as it was and
    no process has been spawned. *)
Theorem transcode_folder_aborts_on_a_lossy_file `{Host} path bitrate w f :
  f ∈ Os.files_below path (w_fs w) →
  is_lossy_name f = true →
  ∃ w', transcode_folder path bitrate w = (Raise Abort, w')
        ∧ w_fs w' = w_fs w
        ∧ w_spawned w' = w_spawned w.
Proof.
  intros Hf Hlossy.
  destruct (validate_lossless_aborts path w f Hf Hlossy) as (w' & Hrun & Hfs & Hsp).
  exists w'. unfold transcode_folder, bind. by rewrite Hrun.
Qed.

(** A stray [.MP3] file, through the theorem. *)
Lemma transcode_folder_aborts_witness :
  let w := Sample.world_of [("/cd", Dir); ("/cd/01.flac", FlacFile Sample.one);
                            ("/cd/x.MP3", OtherFile "ID3")] in
  ∃ w', @transcode_folder Sample.host "/cd" "V0" w = (Raise Abort, w')
        ∧ w_fs w' = w_fs w
        ∧ w_spawned w' = w_spawned w.
Proof.
  intros w.
  apply (@transcode_folder_aborts_on_a_lossy_file Sample.host "/cd" "V0" w "x.MP3").
  - vm_compute. apply elem_of_cons. by left.
  - by vm_compute.
Defined.

(** When the validator finds no lossy file, the destination is not an
    existing directory and the collector raises, [transcode_folder]
    raises the exception of the collector and leaves the world as it
    found it: nothing has been copied and no process spawned. *)
Theorem transcode_folder_surfaces_collection_errors `{Host} path bitrate w e :
  (∀ f, f ∈ Os.files_below path (w_fs w) → is_lossy_name f = false) →
  w_fs w !! Pathlib.Path (_build_output_path path bitrate) ≠ Some Dir →
  (_collect_transcode_items path (_build_output_path path bitrate) w).1 = Raise e →
  transcode_folder path bitrate w = (Raise e, w).
Proof.
  intros Hvalid Hdir Hc. unfold transcode_folder, bind.
  rewrite validate_lossless_accepts by done.
  unfold Os.isdir, gets.
  assert (match w_fs w !! Pathlib.Path (_build_output_path path bitrate) with
          | Some Dir => true
          | _ => false
          end = false) as ->.
  { by destruct (w_fs w !! _) as [[]|]. }
  pose proof (collect_world path (_build_output_path path bitrate) w) as Hw.
  destruct (_collect_transcode_items _ _ w) as [r w1]. simpl in *. by subst.
Qed.

(** A track whose total is not a number, through the theorem. *)
Lemma transcode_folder_surfaces_collection_errors_witness :
  let bad := Sample.track 2 [("tracknumber", ["1"]); ("tracktotal", ["twelve"])] in
  let w := Sample.world_of [("/cd", Dir); ("/cd/01.flac", FlacFile bad)] in
  @transcode_folder Sample.host "/cd" "V0" w = (Raise (IntValueError "twelve"), w).
Proof.
  intros bad w.
  apply (@transcode_folder_surfaces_collection_errors Sample.host "/cd" "V0" w).
  - intros f Hf. vm_compute in Hf. key_cases Hf. by vm_compute.
  - vm_compute. discriminate.
  - vm_compute. reflexivity.
Defined.

(** Whenever [transcode_folder] returns, it returns the path that the
    Path Namer computes for the source and the label, and no file below
    the source has a lossy extension. *)
Theorem transcode_folder_returns_the_namer_path `{Host} path bitrate w r :
  (transcode_folder path bitrate w).1 = Ok r →
  r = _build_output_path path bitrate
  ∧ ∀ f, f ∈ Os.files_below path (w_fs w) → is_lossy_name f = false.
Proof.
  intros Hrun. split.
  - revert Hrun. unfold transcode_folder, bind.
    destruct (_validate_lossless path w) as [[[]|e] w1]; [|done].
    destruct (Os.isdir _ w1) as [[[]|e] w2]; try done.
    + unfold secho, modify, ret. simpl. congruence.
    + destruct (_collect_transcode_items _ _ w2) as [[items|e] w3]; [|done].
      destruct (_copy_extra_files _ _ w3) as [[[]|e] w4]; [|done].
      destruct (_transcode_audio_files _ _ w4) as [[[]|e] w5]; [|done].
      unfold ret. simpl. congruence.
  - intros f Hf. destruct (is_lossy_name f) eqn:Hlossy; [|done].
    destruct (validate_lossless_aborts path w f Hf Hlossy) as (w' & Habort & _).
    unfold transcode_folder, bind in Hrun. by rewrite Habort in Hrun.
Qed.

(** The source whose destination is there, through the theorem. *)
Lemma transcode_folder_returns_the_namer_path_witness :
  let w := Sample.world_of [("/cd", Dir); ("/cd/a.txt", OtherFile ""); ("/cd [MP3 V0]", Dir)] in
  "/cd [MP3 V0]" = _build_output_path "/cd" "V0"
  ∧ ∀ f, f ∈ Os.files_below "/cd" (w_fs w) → is_lossy_name f = false.
Proof.
  intros w.
  apply (@transcode_folder_returns_the_namer_path Sample.host "/cd" "V0" w).
  vm_compute. reflexivity.
Defined.

(** ** More on the Tag Writer *)

Section TagWriterMore.

Lemma vorbis_to_id3_cases k frame_name :
  VORBIS_TO_ID3_MAP !! k = Some frame_name →
  (k, frame_name) ∈
    [ ("title", "TIT2"); ("album", "TALB"); ("artist", "TPE1");
      ("albumartist", "TPE2"); ("album artist", "TPE2"); ("conductor", "TPE3");
      ("remixer", "TPE4"); ("composer", "TCOM"); ("tracknumber", "TRCK");
      ("discnumber", "TPOS"); ("date", "TDRC"); ("comment", "COMM");
      ("genre", "TCON"); ("language", "TLAN"); ("key", "TKEY"); ("bpm", "TBPM");
      ("publisher", "TPUB"); ("label", "TPUB"); ("isrc", "TSRC") ].
Proof. apply elem_of_list_to_map_2. Qed.

End TagWriterMore.

(** Two tags get the same frame exactly when they have the same values
    and the same name, or names that [VORBIS_TO_ID3_MAP] sends to one
    identifier: [albumartist] and [album artist], [publisher] and
    [label].  For every other name the frame tells the name. *)
Theorem get_id3_frame_tells_the_tag_up_to_aliases k v k' v' :
  _get_id3_frame k v = _get_id3_frame k' v'
  ↔ v = v'
    ∧ (k = k'
       ∨ (k ∈ ["albumartist"; "album artist"] ∧ k' ∈ ["albumartist"; "album artist"])
       ∨ (k ∈ ["publisher"; "label"] ∧ k' ∈ ["publisher"; "label"])).
Proof.
  split.
  - unfold _get_id3_frame.
    destruct (VORBIS_TO_ID3_MAP !! k) as [f|] eqn:Ek;
      destruct (VORBIS_TO_ID3_MAP !! k') as [f'|] eqn:Ek'; intros [= ? ?]; subst;
      [|by auto].
    split; [done|].
    apply vorbis_to_id3_cases in Ek, Ek'.
    repeat (apply elem_of_cons in Ek as [Ek|Ek]; [injection Ek as -> ->|]);
      try (by apply elem_of_nil in Ek);
      repeat (apply elem_of_cons in Ek' as [Ek'|Ek']; [simplify_eq|]);
      try (by apply elem_of_nil in Ek');
      first [ by left
            | right; left; split; compute_done
            | right; right; split; compute_done ].
  - intros [-> [->|[[Hk Hk']|[Hk Hk']]]]; [done| |];
      key_cases Hk; key_cases Hk'; reflexivity.
Qed.

(** [_copy_tags] returns exactly when the destination is an MP3 file
    whose tag, if it has one, holds a frame or more.  Otherwise it raises
    the error of the tag library and leaves the file system as it was:
    on a path that is no MP3 file, and on an MP3 file whose tag is there
    but empty, for which [not mp3_thing.tags] holds and [add_tags] finds
    a tag.  It never raises the [ValueError] of its own. *)
Theorem copy_tags_returns_iff_the_tag_can_be_filled `{Host}
    tag_dict flac_obj mp3_path w :
  let r := _copy_tags tag_dict flac_obj mp3_path w in
  (r.1 = Ok tt
   ↔ ∃ m, w_fs w !! mp3_path = Some (Mp3File m) ∧ mp3_tags m ≠ Some ∅)
  ∧ (r.1 ≠ Ok tt → (∃ msg, r.1 = Raise (MutagenError msg)) ∧ w_fs r.2 = w_fs w).
Proof.
  intros r. subst r.
  destruct (tag_can_be_filled_or_not (w_fs w) mp3_path) as [(m & Hopen & Hfill)|Hno].
  - rewrite (copy_tags_run tag_dict flac_obj mp3_path w m Hopen Hfill). simpl.
    split; [split; [by eauto|done]|done].
  - destruct (copy_tags_raises tag_dict flac_obj mp3_path w Hno) as (msg & w' & -> & Hfs).
    simpl. split; [split; [done|]|by eauto].
    intros (m & Hopen & Hfill). exfalso. by apply Hfill, Hno.
Qed.

(** ** More on the Path Namer *)

Section TrailingSeparator.

Lemma rsplit_app_sep p : OsPath.rsplit (p ++ "/") = (p ++ "/", "").
Proof.
  induction p as [|c p IH]; [done|].
  change (String c p ++ "/") with (String c (p ++ "/")).
  cbn [OsPath.rsplit]. rewrite IH. by destruct p.
Qed.

Lemma all_seps_app_sep p : OsPath.all_seps (p ++ "/") = OsPath.all_seps p.
Proof.
  induction p as [|c p IH]; [done|].
  change (String c p ++ "/") with (String c (p ++ "/")).
  cbn [OsPath.all_seps]. by rewrite IH.
Qed.

Lemma rstrip_seps_app_sep p : OsPath.rstrip_seps (p ++ "/") = OsPath.rstrip_seps p.
Proof.
  induction p as [|c p IH]; [done|].
  change (String c p ++ "/") with (String c (p ++ "/")).
  cbn [OsPath.rstrip_seps OsPath.all_seps]. by rewrite all_seps_app_sep, IH.
Qed.

Lemma rstrip_seps_empty s : OsPath.rstrip_seps s = "" → OsPath.all_seps s = true.
Proof.
  destruct s as [|c s]; [done|]. cbn [OsPath.rstrip_seps].
  by destruct (OsPath.all_seps (String c s)).
Qed.

Lemma endswith_sep_cons c s :
  s ≠ "" → PyStr.endswith "/" (String c s) = PyStr.endswith "/" s.
Proof.
  intros Hs. unfold PyStr.endswith.
  change (String c s) with (String c "" ++ s). rewrite rev_append.
  destruct (String.rev s) as [|x t] eqn:E.
  - destruct s as [|y s]; [done|].
    change (String y s) with (String y "" ++ s) in E. rewrite rev_append in E.
    by destruct (String.rev s).
  - change (String.rev "/") with "/". change (String.rev (String c "")) with (String c "").
    change (String x t ++ String c "") with (String x (t ++ String c "")).
    cbn [String.prefix]. destruct (ascii_dec _ _); [|done]. by destruct t.
Qed.

Lemma rstrip_seps_no_sep s : PyStr.endswith "/" (OsPath.rstrip_seps s) = false.
Proof.
  induction s as [|c s IH]; [done|].
  cbn [OsPath.rstrip_seps]. destruct (OsPath.all_seps (String c s)) eqn:Ea; [done|].
  destruct (OsPath.rstrip_seps s) as [|y t] eqn:Er.
  - apply rstrip_seps_empty in Er. cbn [OsPath.all_seps] in Ea. rewrite Er in Ea.
    rewrite andb_true_r in Ea. unfold OsPath.is_sep in Ea.
    apply Ascii.eqb_neq in Ea. unfold PyStr.endswith.
    change (String.rev (String c "")) with (String c ""). change (String.rev "/") with "/".
    cbn [String.prefix]. destruct (ascii_dec _ _); [congruence|done].
  - by rewrite endswith_sep_cons.
Qed.

Lemma substring_app (a b : string) :
  String.substring (String.length a) (String.length (a ++ b) - String.length a) (a ++ b) = b.
Proof.
  induction a as [|c a IH].
  - change ("" ++ b) with b. cbn [String.length]. rewrite Nat.sub_0_r.
    clear. induction b as [|c b IH]; [done|]. cbn [String.length String.substring].
    by rewrite IH.
  - change (String c a ++ b) with (String c (a ++ b)).
    cbn [String.length String.substring]. exact IH.
Qed.

End TrailingSeparator.

(** A source path that ends in a separator has an empty last component:
    the markers are looked for in the empty name, and the destination is
    the directory [ [MP3 <label>]] inside the source, not beside it. *)
Theorem build_output_path_of_a_trailing_separator path bitrate :
  OsPath.all_seps path = false →
  _build_output_path (path ++ "/") bitrate
  = OsPath.rstrip_seps path ++ "/ [MP3 " ++ bitrate ++ "]"
  ∧ Pathlib.relative_to (Pathlib.Path (path ++ "/")) (_build_output_path (path ++ "/") bitrate)
    = Ok (" [MP3 " ++ bitrate ++ "]").
Proof.
  intros Hp.
  assert (_build_output_path (path ++ "/") bitrate
          = OsPath.rstrip_seps path ++ "/" ++ (" [MP3 " ++ bitrate ++ "]")) as Hout.
  { unfold _build_output_path, OsPath.basename, OsPath.dirname.
    rewrite rsplit_app_sep. cbn [fst snd].
    change (Re.search FLAC_FOLDER_RE "") with false.
    change (Re.search LOSSLESS_FOLDER_RE "") with false. cbv iota.
    rewrite all_seps_app_sep, Hp, rstrip_seps_app_sep.
    cbn [PyStr.join]. unfold OsPath.join.
    change (PyStr.startswith "/" ("" ++ " [" ++ ("MP3 " ++ bitrate) ++ "]")) with false.
    rewrite rstrip_seps_no_sep, orb_false_r.
    destruct (OsPath.rstrip_seps path) eqn:Er.
    - apply rstrip_seps_empty in Er. congruence.
    - done. }
  split; [exact Hout|].
  rewrite Hout. unfold Pathlib.relative_to, Pathlib.Path, Pathlib.below.
  rewrite all_seps_app_sep, Hp, rstrip_seps_app_sep, rstrip_seps_no_sep.
  rewrite <- append_assoc. unfold PyStr.startswith. rewrite prefix_app.
  by rewrite substring_app.
Qed.

(** The source [/cd/], through the theorem. *)
Lemma build_output_path_of_a_trailing_separator_witness :
  _build_output_path "/cd/" "V0" = "/cd/ [MP3 V0]"
  ∧ Pathlib.relative_to (Pathlib.Path "/cd/") (_build_output_path "/cd/" "V0")
    = Ok " [MP3 V0]".
Proof.
  apply (build_output_path_of_a_trailing_separator "/cd" "V0"). reflexivity.
Defined.

(** ** What the Auxiliary Copier copies *)

Section CopierFiles.












Lemma bind_Ok_inv {A B} (m : M A) (k : A → M B) w b w' :
  bind m k w = (Ok b, w') → ∃ a w1, m w = (Ok a, w1) ∧ k a w1 = (Ok b, w').
Proof. unfold bind. destruct (m w) as [[a|e] w1]; [eauto|done]. Qed.


End CopierFiles.



(** ** One unit of the batch *)

Section OneUnit.
Context `{Host}.

Lemma decode_then_encode_Ok_inv lame_qual flac_path mp3_path tmp_path w w2 :
  decode_then_encode lame_qual flac_path mp3_path tmp_path w = (Ok tt, w2) →
  ∃ preset,
    LAME_COMMAND_MAP !! lame_qual = Some preset
    ∧ w_spawned w2 = (w_spawned w ++ [flac_cmd tmp_path flac_path;
                                      lame_cmd preset tmp_path mp3_path])%list.
Proof.
  unfold decode_then_encode, bind, Os.run_process, lame_preset, lift.
  destruct (child (flac_cmd tmp_path flac_path) (w_fs w)) as [[c|e] fs2]; [|done].
  destruct (negb (returncode c =? 0)).
  { destruct (decoded_or "" (stderr c)) as [err|e]; [|done].
    by destruct (negb (String.eqb err "")). }
  simpl. destruct (LAME_COMMAND_MAP !! lame_qual) as [preset|]; [|done].
  destruct (child (lame_cmd preset tmp_path mp3_path) fs2) as [[c'|e] fs3]; [|done].
  destruct (negb (returncode c' =? 0)).
  { by destruct (decoded_or "LAME encoding failed" (stderr c')). }
  intros [= <-]. exists preset. split; [done|]. simpl. by rewrite <- app_assoc.
Qed.

Lemma flac_to_mp3_Ok_inv lame_qual flac_path mp3_path w w' :
  _flac_to_mp3 lame_qual flac_path mp3_path w = (Ok tt, w') →
  ∃ tmp_path preset,
    LAME_COMMAND_MAP !! lame_qual = Some preset
    ∧ w_spawned w' = (w_spawned w ++ [flac_cmd tmp_path flac_path;
                                      lame_cmd preset tmp_path mp3_path])%list
    ∧ w_fs w' !! tmp_path = None.
Proof.
  intros Hrun. unfold _flac_to_mp3 in Hrun.
  apply bind_Ok_inv in Hrun as ([] & w0 & Hmk & Hrun).
  apply bind_Ok_inv in Hrun as (tmp_path & w1 & Htmp & Hrun).
  unfold Os.named_temporary_file in Htmp. injection Htmp as <- <-.
  set (tmp_path := temp_name (w_fs w0)) in *.
  set (w1 := set_fs (insert tmp_path (OtherFile "")) w0) in *.
  assert (w_spawned w1 = w_spawned w) as Hsp.
  { pose proof (harmless_mkdir_p (Pathlib.parent (Pathlib.Path mp3_path)) w) as [Hs _].
    rewrite Hmk in Hs. exact Hs. }
  destruct (decode_then_encode lame_qual flac_path mp3_path tmp_path w1)
    as [rb wb] eqn:Eb.
  destruct (try_finally_remove_temp _ tmp_path _ _ _ Eb)
    as [[_ Hr]|[_ (w2 & Hr & Hgone & Hs & _)]]; rewrite Hr in Hrun; [done|].
  injection Hrun as -> ->.
  apply decode_then_encode_Ok_inv in Eb as (preset & Hp & Hs').
  exists tmp_path, preset. split; [done|]. split; [|done]. by rewrite Hs, Hs', Hsp.
Qed.

Lemma copy_tags_Ok_inv tag_dict flac_obj mp3_path w w' :
  _copy_tags tag_dict flac_obj mp3_path w = (Ok tt, w') →
  ∃ m,
    w_fs w !! mp3_path = Some (Mp3File m)
    ∧ mp3_tags m ≠ Some ∅
    ∧ w_fs w' = <[mp3_path :=
                   Mp3File {| mp3_tags := Some (foldl Mutagen.add (default ∅ (mp3_tags m))
                                                  (frames_to_add tag_dict flac_obj));
                              mp3_v2_version := 4;
                              mp3_has_v1 := false |}]> (w_fs w)
    ∧ w_spawned w' = w_spawned w.
Proof.
  intros Hrun.
  destruct (tag_can_be_filled_or_not (w_fs w) mp3_path) as [(m & Hopen & Hfill)|Hno].
  - rewrite (copy_tags_run tag_dict flac_obj mp3_path w m Hopen Hfill) in Hrun.
    injection Hrun as <-. by exists m.
  - destruct (copy_tags_raises tag_dict flac_obj mp3_path w Hno) as (msg & w1 & He & _).
    by rewrite He in Hrun.
Qed.

End OneUnit.

(** What a unit of the batch has done when it returns: the item is the
    one at the index (the key is not looked at), it has two channels at
    most, two processes have been spawned, the decoder of the source into
    a temporary file and then the encoder of that file into the
    destination with the preset of the label, and nothing is left at the
    path of the temporary file.  The destination was an MP3 file with no
    tag, or with a frame in its tag, when the encoder was done, and is an
    MP3 file saved with version 4 of the tag and without an ID3v1 tag;
    its tag holds the frames of the tags and pictures of the item, each
    under its hash key, when no two of them have one hash key and none
    has the hash key of a frame that the encoder wrote. *)
Theorem transcode_one_result `{Host} items bitrate file idx w w' :
  _transcode_one items bitrate file idx w = (Ok tt, w') →
  ∃ item tmp_path preset encoded saved tag,
    items !! idx = Some item
    ∧ info_channels (flac_obj item) <= 2
    ∧ LAME_COMMAND_MAP !! bitrate = Some preset
    ∧ w_spawned w'
      = (w_spawned w ++ [ flac_cmd tmp_path (src item);
                          lame_cmd preset tmp_path (dst item) ])%list
    ∧ (tmp_path ≠ Pathlib.Path (dst item) → w_fs w' !! tmp_path = None)
    ∧ w_fs (_flac_to_mp3 bitrate (src item) (dst item)
              (secho ("Encoding: " ++ dst item) w).2).2 !! Pathlib.Path (dst item)
      = Some (Mp3File encoded)
    ∧ mp3_tags encoded ≠ Some ∅
    ∧ w_fs w' !! Pathlib.Path (dst item) = Some (Mp3File saved)
    ∧ mp3_v2_version saved = 4
    ∧ mp3_has_v1 saved = false
    ∧ mp3_tags saved = Some tag
    ∧ (NoDup (Mutagen.HashKey <$> frames_to_add (tags item) (flac_obj item)) →
       (∀ f, f ∈ frames_to_add (tags item) (flac_obj item) →
             default ∅ (mp3_tags encoded) !! Mutagen.HashKey f = None) →
       ∀ f, f ∈ frames_to_add (tags item) (flac_obj item) →
            tag !! Mutagen.HashKey f = Some f).
Proof.
  intros Hrun. unfold _transcode_one in Hrun.
  apply bind_Ok_inv in Hrun as (item & w0 & Hitem & Hrun).
  unfold lift, item_at in Hitem.
  destruct (items !! idx) as [item'|] eqn:Eitem; [|done]. injection Hitem as -> <-.
  destruct (2 <? info_channels (flac_obj item)) eqn:Ech; [done|].
  apply Z.ltb_ge in Ech.
  apply bind_Ok_inv in Hrun as ([] & w1 & Hecho & Hrun).
  apply bind_Ok_inv in Hrun as ([] & w2 & Hengine & Hrun).
  assert (w_spawned w1 = w_spawned w) as Hsp1.
  { unfold secho, modify in Hecho. by injection Hecho as <-. }
  pose proof Hengine as Hinv.
  apply flac_to_mp3_Ok_inv in Hinv as (tmp_path & preset & Hp & Hsp & Hgone).
  apply copy_tags_Ok_inv in Hrun as (encoded & Hopen & Hfill & Hfs & Hsp').
  eexists item, tmp_path, preset, encoded, _, _.
  rewrite Hecho. cbn [snd]. rewrite Hengine. cbn [snd]. rewrite Hfs, lookup_insert_eq.
  cbn [mp3_tags mp3_v2_version mp3_has_v1].
  repeat (split; [done|]). split; [by rewrite Hsp', Hsp, Hsp1|].
  split; [intros Hne; by rewrite lookup_insert_ne|].
  repeat (split; [done|]).
  intros Hnd Hfree.
  apply (foldl_add_fresh (frames_to_add (tags item) (flac_obj item))
           (default ∅ (mp3_tags encoded)) Hnd Hfree).
Qed.

(** The first track of the sample album into [/o], through the theorem. *)
Lemma transcode_one_result_witness :
  let item := {| src := "/cd/01.flac"; dst := "/o/01.mp3"; flac_obj := Sample.one;
                 tags := {[ "tracknumber" := ["1/2"] ]} |} in
  let w' := (@_transcode_one Sample.host [item] "V0" "" 0 Sample.album).2 in
  ∃ item' tmp_path preset encoded saved tag,
    [item] !! 0%nat = Some item'
    ∧ info_channels (flac_obj item') <= 2
    ∧ LAME_COMMAND_MAP !! "V0" = Some preset
    ∧ w_spawned w'
      = ([] ++ [ flac_cmd tmp_path (src item');
                 lame_cmd preset tmp_path (dst item') ])%list
    ∧ (tmp_path ≠ Pathlib.Path (dst item') → w_fs w' !! tmp_path = None)
    ∧ w_fs (@_flac_to_mp3 Sample.host "V0" (src item') (dst item')
              (secho ("Encoding: " ++ dst item') Sample.album).2).2
        !! Pathlib.Path (dst item')
      = Some (Mp3File encoded)
    ∧ mp3_tags encoded ≠ Some ∅
    ∧ w_fs w' !! Pathlib.Path (dst item') = Some (Mp3File saved)
    ∧ mp3_v2_version saved = 4
    ∧ mp3_has_v1 saved = false
    ∧ mp3_tags saved = Some tag
    ∧ (NoDup (Mutagen.HashKey <$> frames_to_add (tags item') (flac_obj item')) →
       (∀ f, f ∈ frames_to_add (tags item') (flac_obj item') →
             default ∅ (mp3_tags encoded) !! Mutagen.HashKey f = None) →
       ∀ f, f ∈ frames_to_add (tags item') (flac_obj item') →
            tag !! Mutagen.HashKey f = Some f).
Proof.
  intros item w'.
  apply (@transcode_one_result Sample.host [item] "V0" "" 0%nat Sample.album w').
  vm_compute. reflexivity.
Defined.
